(** * SQLServerClient: a shallow embedding of the SQL Server dialect client

    Source: [src/apps/studio/src/store/DataModules.ts], class
    [SQLServerClient].

    Conventions of the embedding:
    - JavaScript strings are [String.string]; the regular expressions and
      the case conversion of the source only look at ASCII characters.
    - JavaScript numbers that the client handles (affected-row counts,
      offsets, limits, catalog identifiers) are integers and are modelled
      as [Z]; the release year, which [_.toNumber] makes of a run of digits
      of any length, is the double nearest to it ([JsNumber]).
    - A JavaScript object is an association list kept in the order in which
      [Object.keys] enumerates its own properties.
    - Asynchronous methods become computations of the monad [M]: a world
      (client fields, server state, queries sent so far) is threaded
      through, and an exception leaves the world as it was when thrown. *)

From Stdlib Require Import String Ascii List ZArith NArith Bool Lia.
From Stdlib Require Import DecimalString DecimalNat Sorted Permutation.
Import ListNotations.

Local Open Scope list_scope.
Local Open Scope Z_scope.
Local Open Scope string_scope.

Set Implicit Arguments.

(* ===================================================================== *)
(** ** JavaScript values and string primitives *)
(* ===================================================================== *)

Module Js.

(** The values that flow through the client untyped ([any]). *)
Inductive value : Type :=
| Undefined
| Null
| Bool (b : bool)
| Number (z : Z)
| Str (s : string).

Definition isString (v : value) : bool :=
  match v with Str _ => true | _ => false end.

Definition isNumber (v : value) : bool :=
  match v with Number _ => true | _ => false end.

Definition stringOfZ (z : Z) : string :=
  NilZero.string_of_int (Z.to_int z).

Definition stringOfNat (n : nat) : string :=
  NilZero.string_of_uint (Nat.to_uint n).

(** [String(v)], the conversion a template literal applies. *)
Definition toString (v : value) : string :=
  match v with
  | Undefined => "undefined"
  | Null => "null"
  | Bool true => "true"
  | Bool false => "false"
  | Number z => stringOfZ z
  | Str s => s
  end.

(** [ToNumber] as [+] applies it to an operand. [None] is NaN. *)
Definition toNumber (v : value) : option Z :=
  match v with
  | Undefined => None
  | Null => Some 0
  | Bool true => Some 1
  | Bool false => Some 0
  | Number z => Some z
  | Str _ => None
  end.

(** [s.replace(/c/g, by)] for a one-character pattern. *)
Fixpoint replaceAll (c : ascii) (by_ : string) (s : string) : string :=
  match s with
  | EmptyString => EmptyString
  | String a r =>
      if Ascii.eqb a c then by_ ++ replaceAll c by_ r
      else String a (replaceAll c by_ r)
  end.

Definition upperChar (a : ascii) : ascii :=
  let n := nat_of_ascii a in
  if (Nat.leb 97 n && Nat.leb n 122)%bool then ascii_of_nat (n - 32) else a.

(** [s.toUpperCase()] on ASCII text. *)
Fixpoint toUpperCase (s : string) : string :=
  match s with
  | EmptyString => EmptyString
  | String a r => String (upperChar a) (toUpperCase r)
  end.

(** [xs.join(sep)]. *)
Definition join (sep : string) (xs : list string) : string :=
  String.concat sep xs.

(** Truthiness of a string operand of [||]. *)
Definition truthyString (s : string) : bool :=
  match s with EmptyString => false | _ => true end.

Definition isDigit (a : ascii) : bool :=
  let n := nat_of_ascii a in (Nat.leb 48 n && Nat.leb n 57)%bool.

Definition digitValue (a : ascii) : Z := Z.of_nat (nat_of_ascii a - 48).

(** The longest prefix matched by [\d*]. *)
Fixpoint takeDigits (s : string) : string :=
  match s with
  | EmptyString => EmptyString
  | String a r => if isDigit a then String a (takeDigits r) else EmptyString
  end.

(** [s] without its prefix [p], when [p] is a prefix of [s]. *)
Fixpoint stripPrefix (p s : string) : option string :=
  match p, s with
  | EmptyString, _ => Some s
  | String a p', String b s' =>
      if Ascii.eqb a b then stripPrefix p' s' else None
  | String _ _, EmptyString => None
  end.

(** Decimal value of a digit string, most significant digit first. *)
Definition digitsToZ (s : string) : Z :=
  fold_left (fun acc a => 10 * acc + digitValue a) (list_ascii_of_string s) 0.

(** An object as the list of its own properties in enumeration order. *)
Definition object (V : Type) : Type := list (string * V).

Definition keys {V} (o : object V) : list string := map fst o.

End Js.

(* ===================================================================== *)
(** ** Identifier wrapping *)
(* ===================================================================== *)

(** [wrapIdentifier(value)]:
<<
    if (_.isString(value)) {
      return (value !== '*' ? `[${value.replace(/\[/g, '[')}]` : '*');
    } return value
>> *)
Definition wrapIdentifier (value : Js.value) : Js.value :=
  match value with
  | Js.Str s =>
      if String.eqb s "*" then Js.Str "*"
      else Js.Str ("[" ++ Js.replaceAll "["%char "[" s ++ "]")
  | _ => value
  end.

(** The text a template literal interpolates for [wrapIdentifier(s)]. *)
Definition wrapIdentifierText (s : string) : string :=
  Js.toString (wrapIdentifier (Js.Str s)).

(** How Transact-SQL reads a bracket-delimited identifier: after the
    opening bracket every character belongs to the name, a doubled closing
    bracket stands for one closing bracket, and a single closing bracket
    ends the identifier. The result is the name read and the text left
    after the identifier; [None] when the identifier is not terminated. *)
Fixpoint scanBracketBody (s : string) : option (string * string) :=
  match s with
  | EmptyString => None
  | String a r =>
      if Ascii.eqb a "]"%char then
        match r with
        | String b r' =>
            if Ascii.eqb b "]"%char then
              match scanBracketBody r' with
              | Some (name, rest) => Some (String "]"%char name, rest)
              | None => None
              end
            else Some (EmptyString, r)
        | EmptyString => Some (EmptyString, EmptyString)
        end
      else
        match scanBracketBody r with
        | Some (name, rest) => Some (String a name, rest)
        | None => None
        end
  end.

Definition scanBracketed (s : string) : option (string * string) :=
  match s with
  | String a r => if Ascii.eqb a "["%char then scanBracketBody r else None
  | EmptyString => None
  end.

(** An identifier has no special character when it is not the wildcard and
    holds no closing bracket. *)
Fixpoint hasClosingBracket (s : string) : bool :=
  match s with
  | EmptyString => false
  | String a r => (Ascii.eqb a "]"%char || hasClosingBracket r)%bool
  end.

Fixpoint countClosingBrackets (s : string) : nat :=
  match s with
  | EmptyString => 0%nat
  | String a r =>
      ((if Ascii.eqb a "]"%char then 1 else 0) + countClosingBrackets r)%nat
  end.

(* ===================================================================== *)
(** ** Server version *)
(* ===================================================================== *)

(** The numbers [_.toNumber] makes of a digit string: an integer that a
    double holds exactly, or [Infinity]. *)
Inductive JsNumber : Type :=
| Finite (z : Z)
| Infinity.

(** The double nearest to a natural number (ties to the even mantissa), as
    the conversion of a decimal numeral to a number yields it: exact below
    [2^53], 53 significant bits above, [Infinity] from [2^1024] on. *)
Definition toDouble (n : Z) : JsNumber :=
  if Z.ltb n (2 ^ 53) then Finite n
  else
    let e := Z.log2 n - 52 in
    let q := Z.shiftr n e in
    let r := n - Z.shiftl q e in
    let half := Z.shiftl 1 (e - 1) in
    let q' := if (Z.ltb half r || (Z.eqb r half && Z.odd q))%bool then q + 1 else q in
    let m := Z.shiftl q' e in
    if Z.leb (2 ^ 1024) m then Infinity else Finite m.

(** [x >= bound]. *)
Definition numberAtLeast (bound : Z) (x : JsNumber) : bool :=
  match x with
  | Finite z => Z.leb bound z
  | Infinity => true
  end.

(** [x || fallback] on numbers: zero is the one falsy number here. *)
Definition numberOr (x : JsNumber) (fallback : JsNumber) : JsNumber :=
  match x with
  | Finite z => if Z.eqb z 0 then fallback else x
  | Infinity => x
  end.

Record SQLServerVersion : Type := mkVersion {
  supportOffsetFetch : bool;
  releaseYear : JsNumber;
  versionString : Js.value
}.

(** One attempt of [/SQL Server (\d+)/] at the head of [s]: the capture
    group when it matches there. *)
Definition matchYearHere (s : string) : option string :=
  match Js.stripPrefix "SQL Server " s with
  | Some r =>
      match Js.takeDigits r with
      | EmptyString => None
      | ds => Some ds
      end
  | None => None
  end.

(** [yearRegex.exec(text)] on a fresh regular expression: the capture group
    of the leftmost match, [None] for [null]. *)
Fixpoint yearRegexExec (s : string) : option string :=
  match matchYearHere s with
  | Some ds => Some ds
  | None =>
      match s with
      | EmptyString => None
      | String _ r => yearRegexExec r
      end
  end.

(** The part of [getVersion] after the query: from the [version] column of
    the first row ([undefined] when there is none) to the descriptor.
<<
    const yearResults = yearRegex.exec(versionString)
    const releaseYear = (yearResults && _.toNumber(yearResults[1])) || 2017
    return { supportOffsetFetch: releaseYear >= 2012, releaseYear, versionString }
>> *)
Definition versionOf (versionString : Js.value) : SQLServerVersion :=
  let yearResults := yearRegexExec (Js.toString versionString) in
  let releaseYear :=
    match yearResults with
    | Some ds => numberOr (toDouble (Js.digitsToZ ds)) (Finite 2017)
    | None => Finite 2017
    end in
  mkVersion (numberAtLeast 2012 releaseYear) releaseYear versionString.

(** The pattern [SQL Server <digits>] occurs in a text. *)
Definition YearPatternOccurs (s : string) : Prop :=
  exists pre d rest,
    Js.isDigit d = true /\ s = pre ++ "SQL Server " ++ String d rest.

(* ===================================================================== *)
(** ** Driver data and parsed results *)
(* ===================================================================== *)

(** A driver row: an object keyed by column name, or, in array row mode,
    the array of the values. *)
Inductive Row : Type :=
| RowObject (o : Js.object Js.value)
| RowArray (vs : list Js.value).

Record Column : Type := mkColumn { column_name_of : string }.

(** The [columns] property of a record set: absent, an array (array row
    mode) or an object keyed by name. *)
Inductive Columns : Type :=
| ColumnsUndefined
| ColumnsArray (cs : list Column)
| ColumnsObject (o : Js.object Column).

Record Recordset : Type := mkRecordset {
  rs_rows : list Row;
  rs_columns : Columns
}.

(** What [request.query] resolves to. [item0] is the property [0] of the
    result object, which [applyChanges] reads. *)
Record DriverData : Type := mkDriverData {
  recordsets : list Recordset;
  recordset : option (list Row);
  rowsAffectedList : list Z;
  item0 : option Row
}.

Record DriverResult : Type := mkDriverResult {
  data : DriverData;
  rowsAffected : Z
}.

Record QueryArgs : Type := mkQueryArgs {
  query : string;
  multiple : bool
}.

Record Field : Type := mkField {
  field_id : string;
  field_name : string
}.

(** The object [parseRowQueryResult] returns. [command] is a string or
    [false]. *)
Record QueryResult : Type := mkQueryResult {
  command : Js.value;
  rows : list Row;
  fields : list Field;
  rowCount : Z;
  affectedRows : Z
}.

Inductive exn : Type :=
| DriverError (code : string)
| TypeError (message : string)
| FileError (path : string).

(** [_.sum(xs)]. *)
Definition sum (xs : list Z) : Z := fold_left Z.add xs 0.

(** [xs.map((x, idx) => f(x, idx))]. *)
Fixpoint mapiFrom {A B} (i : nat) (f : A -> nat -> B) (xs : list A) : list B :=
  match xs with
  | [] => []
  | x :: r => f x i :: mapiFrom (S i) f r
  end.

Definition mapi {A B} (f : A -> nat -> B) (xs : list A) : list B :=
  mapiFrom 0 f xs.

Module JsObject.

Fixpoint lookup {V} (k : string) (o : Js.object V) : option V :=
  match o with
  | [] => None
  | (k', v) :: r => if String.eqb k k' then Some v else lookup k r
  end.

Definition allDigits (s : string) : bool :=
  forallb Js.isDigit (list_ascii_of_string s).

(** The array index a property key denotes, if it is one: a canonical
    decimal numeral below [2^32 - 1]. *)
Definition arrayIndex (k : string) : option N :=
  match k with
  | EmptyString => None
  | _ =>
      if allDigits k then
        let n := Z.to_N (Js.digitsToZ k) in
        if (String.eqb (NilZero.string_of_uint (N.to_uint n)) k
            && N.ltb n 4294967295)%bool
        then Some n else None
      else None
  end.

(** Own-property enumeration order: array indices ascending, then the
    other keys in the order they were created. *)
Definition comesBefore (k k' : string) : bool :=
  match arrayIndex k, arrayIndex k' with
  | Some n, Some n' => N.ltb n n'
  | Some _, None => true
  | None, _ => false
  end.

Fixpoint replace {V} (k : string) (v : V) (o : Js.object V) : Js.object V :=
  match o with
  | [] => []
  | (k', v') :: r =>
      if String.eqb k k' then (k', v) :: r else (k', v') :: replace k v r
  end.

Fixpoint create {V} (k : string) (v : V) (o : Js.object V) : Js.object V :=
  match o with
  | [] => [(k, v)]
  | (k', v') :: r =>
      if comesBefore k k' then (k, v) :: (k', v') :: r
      else (k', v') :: create k v r
  end.

(** [o[k] = v]. *)
Definition set {V} (k : string) (v : V) (o : Js.object V) : Js.object V :=
  match lookup k o with
  | Some _ => replace k v o
  | None => create k v o
  end.

End JsObject.

(** [row[name]]. *)
Definition rowProperty (name : string) (row : Row) : Js.value :=
  match row with
  | RowObject o =>
      match JsObject.lookup name o with Some v => v | None => Js.Undefined end
  | RowArray vs =>
      match JsObject.arrayIndex name with
      | Some n => nth (N.to_nat n) vs Js.Undefined
      | None => Js.Undefined
      end
  end.

(** [Object.keys(row)]. *)
Definition rowKeys (row : Row) : list string :=
  match row with
  | RowObject o => Js.keys o
  | RowArray vs => mapi (fun _ idx => Js.stringOfNat idx) vs
  end.

(** [Object.keys(data[0] || {})]. *)
Definition firstRowKeys (data : list Row) : list string :=
  match data with
  | [] => []
  | row :: _ => rowKeys row
  end.

(** [index < values.length ? values[index] : undefined], where only an
    array has a length. *)
Definition zipValue (r : Row) (index : nat) : Js.value :=
  match r with
  | RowArray vs => nth index vs Js.Undefined
  | RowObject _ => Js.Undefined
  end.

(** [_.zipObject(props, values)]. *)
Definition zipObject (props : list string) (r : Row) : Row :=
  RowObject
    (fold_left
       (fun o ki => JsObject.set (fst ki) (zipValue r (snd ki)) o)
       (mapi (fun k idx => (k, idx)) props) []).

(** [parseFields(data, columns)]. *)
Definition parseFields (data : list Row) (columns : Columns) : list Field :=
  match columns with
  | ColumnsArray cs =>
      mapi (fun c idx => mkField ("c" ++ Js.stringOfNat idx) (column_name_of c)) cs
  | _ => map (fun name => mkField name name) (firstRowKeys data)
  end.

(** [parseRowQueryResult(data, rowsAffected, command, columns, arrayRowMode)];
    [command] is [None] when the classifier gave no entry at that position.
<<
    const isSelect = !!(data.length || rowsAffected === 0)
    ...
    command: command || (isSelect && 'SELECT'),
>> *)
Definition parseRowQueryResult (data : list Row) (rowsAffected : Z)
    (command : option string) (columns : Columns) (arrayRowMode : bool)
    : QueryResult :=
  let isSelect := (negb (Nat.eqb (length data) 0) || Z.eqb rowsAffected 0)%bool in
  let fields := parseFields data columns in
  let fieldIds := map field_id fields in
  mkQueryResult
    (match command with
     | Some c =>
         if Js.truthyString c then Js.Str c
         else if isSelect then Js.Str "SELECT" else Js.Bool false
     | None => if isSelect then Js.Str "SELECT" else Js.Bool false
     end)
    (if arrayRowMode then map (zipObject fieldIds) data else data)
    fields
    (Z.of_nat (length data))
    rowsAffected.

(* ===================================================================== *)
(** ** The collaborators outside the class *)
(* ===================================================================== *)

(** One entry of a structured filter. *)
Inductive FilterValue : Type :=
| FilterScalar (v : Js.value)
| FilterArray (vs : list Js.value).

Record Filter : Type := mkFilter {
  filter_field : string;
  filter_type : string;
  filter_value : FilterValue
}.

(** The helpers imported from [./utils], [@/common/utils], the dialect data
    ([D.escapeString]) and [sql-query-identifier], whose code is not part of
    the file. [None] from [identify] stands for an exception. *)
Class Utils : Type := {
  TableInsert : Type;
  TableUpdate : Type;
  TableDelete : Type;
  identify : string -> option (list string);
  escapeString : string -> string;
  dialectEscapeString : Js.value -> bool -> string;
  joinFilters : list string -> list Filter -> string;
  buildInsertQueries : list TableInsert -> list string;
  buildUpdateQueries : list TableUpdate -> list string;
  buildDeleteQueries : list TableDelete -> list string;
  buildSelectQueriesFromUpdates : list TableUpdate -> list QueryArgs
}.

(** Truthiness of a value. *)
Definition truthy (v : Js.value) : bool :=
  match v with
  | Js.Undefined => false
  | Js.Null => false
  | Js.Bool b => b
  | Js.Number z => negb (Z.eqb z 0)
  | Js.Str s => Js.truthyString s
  end.

(* ===================================================================== *)
(** ** Driver configuration *)
(* ===================================================================== *)

(** [server.config], with the fields [configDatabase] reads. A file path
    is [None] when it is not set. *)
Record ServerConfig : Type := mkServerConfig {
  sc_user : Js.value;
  sc_password : Js.value;
  sc_host : Js.value;
  sc_port : Js.value;
  sc_applicationName : Js.value;
  sc_domain : Js.value;
  sc_localHost : Js.value;
  sc_localPort : Js.value;
  sc_trustServerCertificate : Js.value;
  sc_ssl : Js.value;
  sc_sslCaFile : option string;
  sc_sslCertFile : option string;
  sc_sslKeyFile : option string;
  sc_sslRejectUnauthorized : Js.value
}.

Record ConnectionServer : Type := mkConnectionServer {
  server_config : ServerConfig;
  sshTunnel : Js.value
}.

(** [options.cryptoCredentialsDetails]; a field is [None] when the property
    has not been set. *)
Record Credentials : Type := mkCredentials {
  cred_ca : option string;
  cred_cert : option string;
  cred_key : option string
}.

(** [config.options]; a field is [None] when the object has no such
    property. *)
Record DriverOptions : Type := mkDriverOptions {
  opt_encrypt : option Js.value;
  opt_cryptoCredentialsDetails : option Credentials;
  opt_trustServerCertificate : option Js.value
}.

(** The configuration object; [cfg_requestTimeout] is [None] for
    [Infinity], [cfg_domain] is [None] when the property is not set. *)
Record DbConfig : Type := mkDbConfig {
  cfg_user : Js.value;
  cfg_password : Js.value;
  cfg_server : Js.value;
  cfg_database : Js.value;
  cfg_port : Js.value;
  cfg_requestTimeout : option Z;
  cfg_appName : Js.value;
  cfg_poolMax : Z;
  cfg_domain : option Js.value;
  cfg_options : DriverOptions
}.

Definition truthyPath (path : option string) : bool :=
  match path with
  | Some p => Js.truthyString p
  | None => false
  end.

(** [if (path) target = readFileSync(path)]: the content when the path is
    set, nothing when it is not; the outer [None] is the exception of a
    file that cannot be read. *)
Definition readIfSet (readFileSync : string -> option string) (path : option string)
    : option (option string) :=
  match path with
  | Some p =>
      if Js.truthyString p then
        match readFileSync p with
        | Some content => Some (Some content)
        | None => None
        end
      else Some None
  | None => Some None
  end.

(** [configDatabase(server, database)]; [None] when [readFileSync]
    throws. *)
Definition configDatabase (readFileSync : string -> option string)
    (server : ConnectionServer) (database : Js.value) : option DbConfig :=
  let c := server_config server in
  let appName :=
    if truthy (sc_applicationName c) then sc_applicationName c
    else Js.Str "beekeeperstudio" in
  let domain := if truthy (sc_domain c) then Some (sc_domain c) else None in
  let host := if truthy (sshTunnel server) then sc_localHost c else sc_host c in
  let port := if truthy (sshTunnel server) then sc_localPort c else sc_port c in
  let config options :=
    mkDbConfig (sc_user c) (sc_password c) host database port None appName 10
      domain options in
  if truthy (sc_ssl c) then
    match readIfSet readFileSync (sc_sslCaFile c) with
    | None => None
    | Some ca =>
        match readIfSet readFileSync (sc_sslCertFile c) with
        | None => None
        | Some cert =>
            match readIfSet readFileSync (sc_sslKeyFile c) with
            | None => None
            | Some key =>
                let trust :=
                  if (truthyPath (sc_sslCaFile c) && truthyPath (sc_sslCertFile c)
                      && truthyPath (sc_sslKeyFile c))%bool
                  then Some (Js.Bool (negb (truthy (sc_sslRejectUnauthorized c))))
                  else None in
                Some (config (mkDriverOptions (Some (sc_ssl c))
                                (Some (mkCredentials ca cert key)) trust))
            end
        end
    end
  else
    Some (config (mkDriverOptions None None (Some (sc_trustServerCertificate c)))).

(* ===================================================================== *)
(** ** The monad of client methods *)
(* ===================================================================== *)

(** The [mssql] driver as the client uses it: opening a pool on a
    configuration ([None] for [undefined], before [connect] has stored one)
    may fail, and a request answers a query text from the state of the
    server, which it may change. *)
Class Driver : Type := {
  db : Type;
  poolConnect : option DbConfig -> db -> option exn;
  request : db -> string -> bool -> (exn + DriverData) * db
}.

(** The path whose reading makes [configDatabase] throw, if there is
    one: the first of the three TLS files that is set and cannot be read. *)
Definition unreadablePath (readFileSync : string -> option string)
    (path : option string) : option string :=
  match readIfSet readFileSync path with
  | None => path
  | Some _ => None
  end.

Definition unreadableFile (readFileSync : string -> option string)
    (server : ConnectionServer) : option string :=
  let c := server_config server in
  if truthy (sc_ssl c) then
    match unreadablePath readFileSync (sc_sslCaFile c) with
    | Some p => Some p
    | None =>
        match unreadablePath readFileSync (sc_sslCertFile c) with
        | Some p => Some p
        | None => unreadablePath readFileSync (sc_sslKeyFile c)
        end
    end
  else None.

(** The file system as [configDatabase] uses it: [None] when reading a
    path throws. *)
Class FileSystem : Type := {
  readFile : string -> option string
}.

(** The fields of the client that the methods below read or write:
    [this.connection] (set or not), [this.version], [this.server], the
    [database] property of [this.database], and [this.dbConfig]
    ([undefined] until [connect] assigns it). *)
Record Client : Type := mkClient {
  connection : bool;
  version : option SQLServerVersion;
  clientServer : ConnectionServer;
  clientDatabase : Js.value;
  dbConfig : option DbConfig
}.

(** The client with its pool kept in [this.connection]. *)
Definition connectedClient (c : Client) : Client :=
  mkClient true (version c) (clientServer c) (clientDatabase c) (dbConfig c).

(** A connection without TLS and without tunnel, and a client built on it
    that has not stored a configuration. *)
Definition plainServer : ConnectionServer :=
  mkConnectionServer
    (mkServerConfig (Js.Str "sa") (Js.Str "secret") (Js.Str "localhost")
       (Js.Number 1433) Js.Undefined Js.Undefined Js.Undefined Js.Undefined
       Js.Undefined Js.Undefined None None None Js.Undefined)
    Js.Undefined.

Definition plainClient (connection : bool) (version : option SQLServerVersion)
    : Client :=
  mkClient connection version plainServer (Js.Str "shop") None.

Section Methods.

Context {driver : Driver} {utils : Utils}.

(** The client, the server behind the driver, and the query texts handed
    to [request.query] so far, oldest first. *)
Record World : Type := mkWorld {
  client : Client;
  server : db;
  sent : list string
}.

Definition M (A : Type) : Type := World -> (exn + A) * World.

Definition ret {A} (a : A) : M A := fun w => (inr a, w).

Definition throw {A} (e : exn) : M A := fun w => (inl e, w).

Definition bind {A B} (m : M A) (k : A -> M B) : M B :=
  fun w =>
    match m w with
    | (inr a, w') => k a w'
    | (inl e, w') => (inl e, w')
    end.

(** [try { m } catch (ex) { handler(ex) }]. *)
Definition tryCatch {A} (m : M A) (handler : exn -> M A) : M A :=
  fun w =>
    match m w with
    | (inr a, w') => (inr a, w')
    | (inl e, w') => handler e w'
    end.

End Methods.

Declare Scope method_scope.
Delimit Scope method_scope with method.
Notation "x <- m ;; k" := (bind m (fun x => k))
  (at level 61, m at next level, right associativity) : method_scope.
Notation "m ;;; k" := (bind m (fun _ => k))
  (at level 61, right associativity) : method_scope.

Local Open Scope method_scope.

(* ===================================================================== *)
(** ** SQL fragments *)
(* ===================================================================== *)

Definition star : string := "*".

(** An entry of the order list: a bare field, or [{field, dir}]. *)
Inductive OrderItem : Type :=
| OrderField (name : string)
| OrderObject (field : string) (dir : string).

(** The [filters] argument: absent, a raw clause, or structured entries. *)
Inductive Filters : Type :=
| FiltersAbsent
| FiltersString (clause : string)
| FiltersList (entries : list Filter).

(** The text of [`${a + b}`]. *)
Definition addText (a b : Js.value) : string :=
  if (Js.isString a || Js.isString b)%bool then Js.toString a ++ Js.toString b
  else
    match Js.toNumber a, Js.toNumber b with
    | Some x, Some y => Js.stringOfZ (x + y)
    | _, _ => "NaN"
    end.

(** [genOrderByString(orderBy)]; [None] is a missing ([null], [undefined])
    order argument.
<<
    if (!orderBy) return ""
    let orderByString = "ORDER BY (SELECT NULL)"
    if (orderBy && orderBy.length > 0) {
      orderByString = "ORDER BY " + (orderBy.map((item) => {
        if (_.isObject(item)) {
          return `${this.wrapIdentifier(item.field)} ${item.dir.toUpperCase()}`
        } else {
          return this.wrapIdentifier(item)
        }
      })).join(",")
    }
    return orderByString
>> *)
Definition orderTerm (item : OrderItem) : string :=
  match item with
  | OrderObject field dir => wrapIdentifierText field ++ " " ++ Js.toUpperCase dir
  | OrderField name => wrapIdentifierText name
  end.

Definition genOrderByString (orderBy : option (list OrderItem)) : string :=
  match orderBy with
  | None => ""
  | Some [] => "ORDER BY (SELECT NULL)"
  | Some items => "ORDER BY " ++ Js.join "," (map orderTerm items)
  end.

Section Fragments.

Context {utils : Utils}.

(** [buildFilterString(filters)] on a structured (or absent) filter. *)
Definition filterTerm (item : Filter) : string :=
  let wrappedValue :=
    match filter_value item with
    | FilterArray vs =>
        "(" ++ Js.join "," (map (fun v => dialectEscapeString v true) vs) ++ ")"
    | FilterScalar v => dialectEscapeString v true
    end in
  wrapIdentifierText (filter_field item) ++ " "
    ++ Js.toUpperCase (filter_type item) ++ " " ++ wrappedValue.

Definition buildFilterString (filters : option (list Filter)) : string :=
  match filters with
  | Some (f :: fs) =>
      "WHERE " ++ joinFilters (map filterTerm (f :: fs)) (f :: fs)
  | _ => ""
  end.

(** [_.isString(filters) ? `WHERE ${filters}` : this.buildFilterString(filters)]. *)
Definition filterStringOf (filters : Filters) : string :=
  match filters with
  | FiltersString clause => "WHERE " ++ clause
  | FiltersList entries => buildFilterString (Some entries)
  | FiltersAbsent => buildFilterString None
  end.

(** [schema ? `${this.wrapIdentifier(schema)}.` : '']. *)
Definition schemaStringOf (schema : option string) : string :=
  match schema with
  | Some s => if Js.truthyString s then wrapIdentifierText s ++ "." else ""
  | None => ""
  end.

Definition selectStringOf (selects : list string) : string :=
  Js.join ", " (map wrapIdentifierText selects).

(** [genSelectOld]: pagination by a ranked subquery. *)
Definition genSelectOld (table : string) (offset limit : Js.value)
    (orderBy : option (list OrderItem)) (filters : Filters)
    (schema : option string) (selects : list string) : string :=
  let selectString := selectStringOf selects in
  let orderByString := genOrderByString orderBy in
  let filterString := filterStringOf filters in
  let lastRow := addText offset limit in
  let schemaString := schemaStringOf schema in
  "
      WITH CTE AS
      (
          SELECT " ++
  selectString ++
  "
                , ROW_NUMBER() OVER (" ++
  orderByString ++
  ") as RowNumber
          FROM " ++
  schemaString ++
  wrapIdentifierText table ++
  "
          " ++
  filterString ++
  "
      )
      SELECT *
            -- get the total records so the web layer can work out
            -- how many pages there are
            , (SELECT COUNT" ++
  "(" ++ star ++ ")" ++
  " FROM CTE) AS TotalRecords
      FROM CTE
      WHERE RowNumber BETWEEN " ++
  Js.toString offset ++
  " AND " ++
  lastRow ++
  "
      ORDER BY RowNumber ASC
    ".

(** [genSelectNew]: pagination by [OFFSET ... FETCH]. *)
Definition genSelectNew (table : string) (offset limit : Js.value)
    (orderBy : option (list OrderItem)) (filters : Filters)
    (schema : option string) (selects : list string) : string :=
  let filterString := filterStringOf filters in
  let orderByString := genOrderByString orderBy in
  let schemaString := schemaStringOf schema in
  let selectSQL := "SELECT " ++ selectStringOf selects in
  let baseSQL :=
    "
      FROM " ++
    schemaString ++
    wrapIdentifierText table ++
    "
      " ++
    filterString ++
    "
    " in
  let offsetString :=
    if (Js.isNumber offset && Js.isNumber limit)%bool then
      "OFFSET " ++ Js.toString offset ++ " ROWS FETCH NEXT "
        ++ Js.toString limit ++ " ROWS ONLY"
    else "" in
  "
      " ++
  selectSQL ++
  " " ++
  baseSQL ++
  "
      " ++
  orderByString ++
  "
      " ++
  offsetString ++
  "
      ".

(** The query of [listTableIndexes]. *)
Definition listTableIndexesSql (table schema : string) : string :=
  "
      SELECT

      t.name as table_name,
      s.name as schema_name,
      ind.name as index_name,
      ind.index_id as index_id,
      ic.index_column_id as column_id,
      col.name as column_name,
      ic.is_descending_key as is_descending,
      ind.is_unique as is_unique,
      ind.is_primary_key as is_primary

      FROM
          sys.indexes ind
      INNER JOIN
          sys.index_columns ic ON  ind.object_id = ic.object_id and ind.index_id = ic.index_id
      INNER JOIN
          sys.columns col ON ic.object_id = col.object_id and ic.column_id = col.column_id
      INNER JOIN
          sys.tables t ON ind.object_id = t.object_id
      INNER JOIN
          sys.schemas s on t.schema_id = s.schema_id
      WHERE
          ind.is_unique_constraint = 0
          AND t.is_ms_shipped = 0
          AND t.name = '" ++
  escapeString table ++
  "'
          AND s.name = '" ++
  escapeString schema ++
  "'
      ORDER BY
          t.name, ind.name, ind.index_id, ic.is_included_column, ic.key_ordinal;
    ".

End Fragments.

(* ===================================================================== *)
(** ** Index introspection: reshaping the catalog rows *)
(* ===================================================================== *)

(** A row of the catalog join, typed by the select list of the query. *)
Record IndexRow : Type := mkIndexRow {
  index_name : string;
  index_id : Z;
  column_id : Z;
  column_name : string;
  is_descending : bool;
  is_unique : bool;
  is_primary : bool
}.

Record IndexColumn : Type := mkIndexColumn {
  ic_name : string;
  ic_order : string
}.

Record TableIndex : Type := mkTableIndex {
  ti_table : string;
  ti_schema : string;
  ti_id : Z;
  ti_name : string;
  ti_unique : bool;
  ti_primary : bool;
  ti_columns : list IndexColumn
}.

(** [_.groupBy(xs, key)]: a group is created at the first element with its
    key and later elements are pushed onto it. *)
Definition groupStep {A} (key : A -> string) (o : Js.object (list A)) (x : A)
    : Js.object (list A) :=
  match JsObject.lookup (key x) o with
  | Some g => JsObject.set (key x) (g ++ [x])%list o
  | None => JsObject.set (key x) [x] o
  end.

Definition groupBy {A} (key : A -> string) (xs : list A) : Js.object (list A) :=
  fold_left (groupStep key) xs [].

(** [_.sortBy(xs, key)] for an integer key: ascending and stable. *)
Fixpoint insertBy {A} (key : A -> Z) (x : A) (l : list A) : list A :=
  match l with
  | [] => [x]
  | y :: r => if Z.leb (key x) (key y) then x :: y :: r else y :: insertBy key x r
  end.

Definition sortBy {A} (key : A -> Z) (xs : list A) : list A :=
  fold_right (insertBy key) [] xs.

Definition indexColumnOf (column : IndexRow) : IndexColumn :=
  mkIndexColumn (column_name column) (if is_descending column then "DESC" else "ASC").

(** The record built for one key of the grouped object; [None] is the
    [TypeError] of reading a property of [blob[0]] when it is [undefined]. *)
Definition indexOfGroup (table schema : string) (grouped : Js.object (list IndexRow))
    (indexName : string) : option TableIndex :=
  match JsObject.lookup indexName grouped with
  | Some (first :: rest) =>
      let blob := first :: rest in
      Some (mkTableIndex table schema (index_id first) indexName
              (is_unique first) (is_primary first)
              (map indexColumnOf (sortBy column_id blob)))
  | _ => None
  end.

Fixpoint mapOption {A B} (f : A -> option B) (xs : list A) : option (list B) :=
  match xs with
  | [] => Some []
  | x :: r =>
      match f x, mapOption f r with
      | Some y, Some ys => Some (y :: ys)
      | _, _ => None
      end
  end.

(** [listTableIndexes] after the query, on [data.recordset]. *)
Definition tableIndexesOf (table schema : string) (recordset : list IndexRow)
    : option (list TableIndex) :=
  let grouped := groupBy index_name recordset in
  match mapOption (indexOfGroup table schema grouped) (Js.keys grouped) with
  | Some result => Some (sortBy ti_id result)
  | None => None
  end.

(* ===================================================================== *)
(** ** Methods of the client *)
(* ===================================================================== *)

(** The [changes] argument of [applyChanges]; [None] is a missing list. *)
Record Changes {utils : Utils} : Type := mkChanges {
  inserts : option (list TableInsert);
  updates : option (list TableUpdate);
  deletes : option (list TableDelete)
}.

Record SelectTopResult : Type := mkSelectTopResult {
  st_result : list Row;
  st_fields : list string
}.

Section ClientMethods.

Context {driver : Driver} {utils : Utils}.

Definition setConnection (w : World) : World :=
  mkWorld (connectedClient (client w)) (server w) (sent w).

Definition setVersion (v : SQLServerVersion) : M unit :=
  fun w =>
    (inr tt,
     mkWorld (mkClient (connection (client w)) (Some v) (clientServer (client w))
                (clientDatabase (client w)) (dbConfig (client w)))
       (server w) (sent w)).

(** [this.dbConfig = config]. *)
Definition setDbConfig (config : DbConfig) (w : World) : World :=
  mkWorld (mkClient (connection (client w)) (version (client w))
             (clientServer (client w)) (clientDatabase (client w)) (Some config))
    (server w) (sent w).

(** [runQuery] inside [driverExecuteQuery]: one call of [request.query]. *)
Definition runQuery (queryArgs : QueryArgs) (arrayRowMode : bool) : M DriverResult :=
  fun w =>
    let '(answer, server') := request (server w) (query queryArgs) arrayRowMode in
    let w' := mkWorld (client w) server' (sent w ++ [query queryArgs])%list in
    match answer with
    | inl e => (inl e, w')
    | inr d => (inr (mkDriverResult d (sum (rowsAffectedList d))), w')
    end.

(** [runWithConnection(run)]: opens the pool, keeps it, then runs. *)
Definition runWithConnection {A} (run : M A) : M A :=
  fun w =>
    match poolConnect (dbConfig (client w)) (server w) with
    | Some e => (inl e, w)
    | None => run (setConnection w)
    end.

(** [driverExecuteQuery(queryArgs, arrayRowMode)]. The non-strict
    [identify] call at its head has no effect on the outcome. *)
Definition driverExecuteQuery (queryArgs : QueryArgs) (arrayRowMode : bool)
    : M DriverResult :=
  fun w =>
    if connection (client w) then runQuery queryArgs arrayRowMode w
    else runWithConnection (runQuery queryArgs arrayRowMode) w.

(** [identifyCommands(queryText).map((item) => item.type)]. *)
Definition identifyCommands (queryText : string) : list string :=
  match identify queryText with
  | Some types => types
  | None => []
  end.

(** The literal [[[]]] of [executeQuery]: one empty record set. *)
Definition placeholderRecordsets : list Recordset :=
  [mkRecordset [] ColumnsUndefined].

(** [executeQuery(queryText, arrayRowMode)].
<<
  const results = !data.recordsets.length && rowsAffected > 0 ? [[]] : data.recordsets
  return results.map((result, idx) =>
    this.parseRowQueryResult(result, rowsAffected, commands[idx], result?.columns, arrayRowMode))
>> *)
Definition resultsOf (r : DriverResult) : list Recordset :=
  if (Nat.eqb (length (recordsets (data r))) 0 && Z.ltb 0 (rowsAffected r))%bool
  then placeholderRecordsets
  else recordsets (data r).

Definition parseResults (r : DriverResult) (commands : list string)
    (arrayRowMode : bool) : list QueryResult :=
  mapi (fun result idx =>
          parseRowQueryResult (rs_rows result) (rowsAffected r)
            (nth_error commands idx) (rs_columns result) arrayRowMode)
       (resultsOf r).

Definition executeQuery (queryText : string) (arrayRowMode : bool)
    : M (list QueryResult) :=
  r <- driverExecuteQuery (mkQueryArgs queryText true) arrayRowMode ;;
  ret (parseResults r (identifyCommands queryText) arrayRowMode).

Definition versionQuery : string := "SELECT @@VERSION as version".

(** [result[0]?.rows[0]?.version]. *)
Definition versionStringOf (result : list QueryResult) : Js.value :=
  match result with
  | [] => Js.Undefined
  | r0 :: _ =>
      match rows r0 with
      | [] => Js.Undefined
      | row :: _ => rowProperty "version" row
      end
  end.

Definition getVersion : M SQLServerVersion :=
  result <- executeQuery versionQuery false ;;
  ret (versionOf (versionStringOf result)).

(** [connect()].
<<
  this.dbConfig = this.configDatabase(this.server, this.database)
  this.version = await this.getVersion()
>>
    When a TLS file cannot be read, [configDatabase] throws and nothing is
    assigned. *)
Definition connect {files : FileSystem} : M unit :=
  fun w =>
    match configDatabase readFile (clientServer (client w)) (clientDatabase (client w)) with
    | Some config => (v <- getVersion ;; setVersion v) (setDbConfig config w)
    | None =>
        (inl (FileError
                (match unreadableFile readFile (clientServer (client w)) with
                 | Some path => path
                 | None => ""
                 end)),
         w)
    end.

Definition selectTopSql (table : string) (offset limit : Js.value)
    (orderBy : option (list OrderItem)) (filters : Filters)
    (schema : option string) (selects : list string) : M string :=
  version <- getVersion ;;
  ret (if supportOffsetFetch version
       then genSelectNew table offset limit orderBy filters schema selects
       else genSelectOld table offset limit orderBy filters schema selects).

(** [selectTop]; reading [recordset[0]] of a missing record set is a
    [TypeError]. *)
Definition selectTop (table : string) (offset limit : Js.value)
    (orderBy : option (list OrderItem)) (filters : Filters)
    (schema : option string) (selects : list string) : M SelectTopResult :=
  query <- selectTopSql table offset limit orderBy filters schema selects ;;
  result <- driverExecuteQuery (mkQueryArgs query false) false ;;
  match recordset (data result) with
  | Some records => ret (mkSelectTopResult records (firstRowKeys records))
  | None => throw (TypeError "Cannot read properties of undefined (reading '0')")
  end.

(** The statement list of [applyChanges] before it is joined. *)
Definition applyChangesStatements (changes : Changes) : list string :=
  let sql := ["SET XACT_ABORT ON"; "BEGIN TRANSACTION"] in
  let sql :=
    match inserts changes with
    | Some l => (sql ++ buildInsertQueries l)%list
    | None => sql
    end in
  let sql :=
    match updates changes with
    | Some l => (sql ++ buildUpdateQueries l)%list
    | None => sql
    end in
  let sql :=
    match deletes changes with
    | Some l => (sql ++ buildDeleteQueries l)%list
    | None => sql
    end in
  (sql ++ ["COMMIT"])%list.

(** The loop over the re-selection queries:
<<
  const r = await this.driverExecuteQuery(element)
  if (r.data[0]) results.push(r.data[0])
>> *)
Fixpoint reselect (selectQueries : list QueryArgs) (results : list Row)
    : M (list Row) :=
  match selectQueries with
  | [] => ret results
  | element :: rest =>
      r <- driverExecuteQuery element false ;;
      reselect rest
        (match item0 (data r) with
         | Some row => (results ++ [row])%list
         | None => results
         end)
  end.

(** [applyChanges(changes)]. The handler logs and rethrows. *)
Definition applyChanges (changes : Changes) : M (list Row) :=
  tryCatch
    (_ <- driverExecuteQuery
            (mkQueryArgs (Js.join ";" (applyChangesStatements changes)) false) false ;;
     match updates changes with
     | Some l => reselect (buildSelectQueriesFromUpdates l) []
     | None => ret []
     end)
    (fun ex => throw ex).

End ClientMethods.

(* ===================================================================== *)
(** ** Reading the generated SQL back *)
(* ===================================================================== *)

Inductive Direction : Type := Ascending | Descending.

(** How Transact-SQL reads one term of an ORDER BY list that starts with a
    bracketed identifier: the name, and the direction, which is ascending
    when no keyword follows the identifier. [None] when the term is not of
    that form. *)
Definition readOrderTerm (term : string) : option (string * Direction) :=
  match scanBracketed term with
  | Some (name, rest) =>
      if String.eqb rest "" then Some (name, Ascending)
      else if String.eqb rest " ASC" then Some (name, Ascending)
      else if String.eqb rest " DESC" then Some (name, Descending)
      else None
  | None => None
  end.

(** A statement block of the transaction body as the specification words
    it: left out when its list is empty or absent. *)
Definition statementBlock {A} (build : list A -> list string)
    (items : option (list A)) : list string :=
  match items with
  | Some (x :: l) => build (x :: l)
  | _ => []
  end.

(** The elements with a given key, in their order. *)
Definition membersOf {A} (key : A -> string) (k : string) (xs : list A) : list A :=
  filter (fun y => String.eqb (key y) k) xs.

(** The rows of the catalog join that belong to one index, in the order of
    the record set. *)
Definition rowsOfIndex (name : string) (recordset : list IndexRow) : list IndexRow :=
  membersOf index_name name recordset.

(** An object groups a list: its keys are distinct, and under each key it
    holds the elements with that key, when there are any. *)
Definition GroupedAs {A} (key : A -> string) (o : Js.object (list A))
    (xs : list A) : Prop :=
  NoDup (Js.keys o)
  /\ forall k,
       JsObject.lookup k o = match membersOf key k xs with
                             | [] => None
                             | y :: g => Some (y :: g)
                             end.

(** Ascending order of an integer key. *)
Definition ascendingBy {A} (key : A -> Z) (a b : A) : Prop := key a <= key b.

(** A block as the code builds it: skipped when the list is missing,
    otherwise whatever the builder makes of the list. *)
Definition builtBlock {A} (build : list A -> list string)
    (items : option (list A)) : list string :=
  match items with
  | Some l => build l
  | None => []
  end.

(** The transaction body in the words of the specification. *)
Definition transactionBody {utils : Utils} (changes : Changes) : list string :=
  (["SET XACT_ABORT ON"; "BEGIN TRANSACTION"]
     ++ statementBlock buildInsertQueries (inserts changes)
     ++ statementBlock buildUpdateQueries (updates changes)
     ++ statementBlock buildDeleteQueries (deletes changes)
     ++ ["COMMIT"])%list.

(** The driver can be reached from a world: the pool is already open, or
    opening it succeeds. *)
Definition Reachable {driver : Driver} (w : World) : Prop :=
  connection (client w) = true \/ poolConnect (dbConfig (client w)) (server w) = None.


(* ===================================================================== *)
(** ** A small server to run the client against *)
(* ===================================================================== *)

Module Demo.

Definition banner : string :=
  "Microsoft Azure SQL Edge Developer (RTM) - 15.0.2000.1574 (ARM64)".

Definition versionRows : list Row := [RowObject [("version", Js.Str banner)]].

Definition versionData : DriverData :=
  mkDriverData [mkRecordset versionRows ColumnsUndefined] (Some versionRows) [1] None.

Definition goodUpdate : string := "update [t] set [name] = 'x' where [id] = 1".
Definition badUpdate : string := "update [t] set [name] = NULL where [id] = 1".
Definition reselectQuery : string := "select * from [t] where [id] = 1".

Definition batchOf (update : string) : string :=
  Js.join ";" ["SET XACT_ABORT ON"; "BEGIN TRANSACTION"; update; "COMMIT"].

Definition rowOf (name : string) : Row :=
  RowObject [("id", Js.Number 1); ("name", Js.Str name)].

(** The server holds one table [t] with one row, whose [name] column is
    the state. [badUpdate] violates a NOT NULL constraint. *)
Definition demoRequest (s : string) (q : string) (mode : bool)
    : (exn + DriverData) * string :=
  if String.eqb q versionQuery then (inr versionData, s)
  else if String.eqb q (batchOf badUpdate) then (inl (DriverError "EREQUEST"), s)
  else if String.eqb q (batchOf goodUpdate) then
    (inr (mkDriverData [] None [1] None), "x")
  else if String.eqb q reselectQuery then
    (inr (mkDriverData [mkRecordset [rowOf s] ColumnsUndefined] (Some [rowOf s]) [1]
            (Some (rowOf s))), s)
  else (inr (mkDriverData [mkRecordset [] ColumnsUndefined] (Some []) [0] None), s).

Definition demoDriver : Driver :=
  {| db := string; poolConnect := fun _ _ => None; request := demoRequest |}.

Definition demoUtils : Utils :=
  {| TableInsert := string;
     TableUpdate := string;
     TableDelete := string;
     identify := fun q => if String.eqb q versionQuery then Some ["SELECT"] else None;
     escapeString := fun s => s;
     dialectEscapeString := fun v _ => "'" ++ Js.toString v ++ "'";
     joinFilters := fun terms _ => Js.join " AND " terms;
     buildInsertQueries := fun l => l;
     buildUpdateQueries := fun l => l;
     buildDeleteQueries := fun l => l;
     buildSelectQueriesFromUpdates :=
       map (fun _ => mkQueryArgs reselectQuery false) |}.

Definition start : @World demoDriver :=
  @mkWorld demoDriver (plainClient false None) "old" [].

(** After the version query: the pool is open. *)
Definition opened : @World demoDriver :=
  @mkWorld demoDriver (plainClient true None) "old" [versionQuery].

(** No file can be read; the plain connection names none. *)
Definition demoFiles : FileSystem := {| readFile := fun _ => None |}.

Definition connected : @World demoDriver :=
  snd (@connect demoDriver demoUtils demoFiles start).

Definition updateOnly (u : string) : @Changes demoUtils :=
  @mkChanges demoUtils None (Some [u]) None.

Definition catalog : list IndexRow :=
  [ mkIndexRow "ix_b" 3 2 "city" true true false;
    mkIndexRow "pk_t" 1 1 "id" false true true;
    mkIndexRow "ix_b" 3 1 "zip" false true false ].

End Demo.

(* ===================================================================== *)
(** ** Literals, qualified names and their readers *)
(* ===================================================================== *)

(** [wrapValue(value)]: the value between single quotes, every single
    quote in it doubled. *)
Definition wrapValue (value : string) : string :=
  "'" ++ Js.replaceAll "'"%char "''" value ++ "'".

Definition startsWith (c : ascii) (s : string) : bool :=
  match s with
  | String a _ => Ascii.eqb a c
  | EmptyString => false
  end.

(** How Transact-SQL reads a character literal: after the opening quote a
    doubled quote stands for one quote and a single quote ends the
    literal. The result is the value and the text left after it. *)
Fixpoint scanQuotedBody (s : string) : option (string * string) :=
  match s with
  | EmptyString => None
  | String a r =>
      if Ascii.eqb a "'"%char then
        match r with
        | String b r' =>
            if Ascii.eqb b "'"%char then
              match scanQuotedBody r' with
              | Some (value, rest) => Some (String "'"%char value, rest)
              | None => None
              end
            else Some (EmptyString, r)
        | EmptyString => Some (EmptyString, EmptyString)
        end
      else
        match scanQuotedBody r with
        | Some (value, rest) => Some (String a value, rest)
        | None => None
        end
  end.

Definition scanQuoted (s : string) : option (string * string) :=
  match s with
  | String a r => if Ascii.eqb a "'"%char then scanQuotedBody r else None
  | EmptyString => None
  end.

(** A name that [wrapIdentifier] brackets and that holds no closing
    bracket. *)
Definition plainName (s : string) : bool :=
  (negb (String.eqb s "*") && negb (hasClosingBracket s))%bool.

(** [duplicateTableSql(tableName, duplicateTableName, schema)]. *)
Definition duplicateTableSql (tableName duplicateTableName schema : string)
    : string :=
  "SELECT * INTO " ++ wrapIdentifierText schema ++ "."
    ++ wrapIdentifierText duplicateTableName
    ++ " FROM " ++ wrapIdentifierText schema ++ "." ++ wrapIdentifierText tableName.

(** A two-part name [[schema].[object]] at the head of a text. *)
Definition readQualified (s : string) : option ((string * string) * string) :=
  match scanBracketed s with
  | Some (schema, rest) =>
      match rest with
      | String a rest' =>
          if Ascii.eqb a "."%char then
            match scanBracketed rest' with
            | Some (name, rest'') => Some ((schema, name), rest'')
            | None => None
            end
          else None
      | EmptyString => None
      end
  | None => None
  end.

(** The target and the source of a SELECT ... INTO statement. *)
Definition readSelectInto (s : string)
    : option ((string * string) * (string * string)) :=
  match Js.stripPrefix "SELECT * INTO " s with
  | Some r =>
      match readQualified r with
      | Some (target, r1) =>
          match Js.stripPrefix " FROM " r1 with
          | Some r2 =>
              match readQualified r2 with
              | Some (source, EmptyString) => Some (target, source)
              | _ => None
              end
          | None => None
          end
      | None => None
      end
  | None => None
  end.

(** The ordering an entry of the order list asks for. *)
Definition itemOrder (item : OrderItem) : string * Direction :=
  match item with
  | OrderField name => (name, Ascending)
  | OrderObject field dir =>
      (field, if String.eqb (Js.toUpperCase dir) "DESC" then Descending else Ascending)
  end.

(** An entry whose text Transact-SQL can read back: a plain name, and for
    an object entry a direction that is ASC or DESC in any letter case. *)
Definition readableItem (item : OrderItem) : bool :=
  match item with
  | OrderField name => plainName name
  | OrderObject field dir =>
      (plainName field
       && (String.eqb (Js.toUpperCase dir) "ASC"
           || String.eqb (Js.toUpperCase dir) "DESC"))%bool
  end.

(** The terms of an ORDER BY list: bracketed names, each with an optional
    direction, separated by commas. *)
Fixpoint readOrderTerms (fuel : nat) (s : string)
    : option (list (string * Direction)) :=
  match fuel with
  | O => None
  | S fuel' =>
      match scanBracketed s with
      | Some (name, rest) =>
          let '(dir, rest') :=
            match Js.stripPrefix " DESC" rest with
            | Some r => (Descending, r)
            | None =>
                match Js.stripPrefix " ASC" rest with
                | Some r => (Ascending, r)
                | None => (Ascending, rest)
                end
            end in
          match rest' with
          | EmptyString => Some [(name, dir)]
          | String a r =>
              if Ascii.eqb a ","%char then
                match readOrderTerms fuel' r with
                | Some terms => Some ((name, dir) :: terms)
                | None => None
                end
              else None
          end
      | None => None
      end
  end.

Definition readOrderBy (s : string) : option (list (string * Direction)) :=
  match Js.stripPrefix "ORDER BY " s with
  | Some r => readOrderTerms (String.length r) r
  | None => None
  end.

(** No character of the text is [c]. *)
Fixpoint lacksChar (c : ascii) (s : string) : bool :=
  match s with
  | EmptyString => true
  | String a r => (negb (Ascii.eqb a c) && lacksChar c r)%bool
  end.

Definition startsWithDigit (s : string) : bool :=
  match s with
  | String a _ => Js.isDigit a
  | EmptyString => false
  end.

(* ===================================================================== *)
(** ** Further methods of the client *)
(* ===================================================================== *)

(** The helpers of the dialect data ([D.wrapIdentifier]) that
    [setTableDescription] calls, whose code is not part of the file. *)
Class DialectData : Type := {
  dialectWrapIdentifier : string -> string
}.

Record PrimaryKeyColumn : Type := mkPrimaryKeyColumn {
  columnName : Js.value;
  position : Js.value
}.

(** The query of [getPrimaryKeys]. *)
Definition getPrimaryKeysSql (table schema : string) : string :=
  "
    SELECT COLUMN_NAME, ORDINAL_POSITION
    FROM INFORMATION_SCHEMA.KEY_COLUMN_USAGE
    WHERE OBJECTPROPERTY(OBJECT_ID(CONSTRAINT_SCHEMA + '.' + QUOTENAME(CONSTRAINT_NAME)), 'IsPrimaryKey') = 1
    AND TABLE_NAME = " ++
  wrapValue table ++
  " AND TABLE_SCHEMA = " ++
  wrapValue schema ++
  "
    ".

(** The property [recordset] of the object [driverExecuteQuery] resolves
    to. That object has the properties [request], [data] and
    [rowsAffected]; the record sets are inside [data]. *)
Definition resultRecordset (r : DriverResult) : option (list Row) := None.

(** The property [schema] of a record set, which is an array of rows with
    a [columns] property. *)
Definition recordsetSchema (rs : Recordset) : Js.value := Js.Undefined.

Section FurtherMethods.

Context {driver : Driver} {utils : Utils} {dialect : DialectData}.

(** [getPrimaryKeys(database, table, schema)].
<<
  if (!data.recordset || data.recordset.length === 0) return []
  return data.recordset.map((r) => ({
    columnName: r.COLUMN_NAME,
    position: r.ORDINAL_POSITION
  }))
>> *)
Definition getPrimaryKeys (table schema : string) : M (list PrimaryKeyColumn) :=
  r <- driverExecuteQuery (mkQueryArgs (getPrimaryKeysSql table schema) false) false ;;
  match recordset (data r) with
  | None => ret []
  | Some records =>
      ret (map (fun row => mkPrimaryKeyColumn (rowProperty "COLUMN_NAME" row)
                             (rowProperty "ORDINAL_POSITION" row))
               records)
  end.

(** [getPrimaryKey]: [res.length === 1 ? res[0].columnName : null]. *)
Definition getPrimaryKey (table schema : string) : M Js.value :=
  res <- getPrimaryKeys table schema ;;
  ret (match res with
       | [key] => columnName key
       | _ => Js.Null
       end).

(** [genCountQuery(table, filters, schema)]. *)
Definition genCountQuery (table : string) (filters : Filters)
    (schema : option string) : string :=
  let filterString := filterStringOf filters in
  let schemaString := schemaStringOf schema in
  let baseSQL :=
    "
     FROM " ++
    schemaString ++
    wrapIdentifierText table ++
    "
     " ++
    filterString ++
    "
    " in
  "
      select count" ++
  "(" ++ star ++ ")" ++
  " as total " ++
  baseSQL ++
  "
    ".

(** [getTableLength(table, schema)].
<<
  const rowWithTotal = countResults.data.recordset.find((row) => { return row.total })
  const totalRecords = rowWithTotal ? rowWithTotal.total : 0
>> *)
Definition getTableLength (table : string) (schema : option string) : M Js.value :=
  countResults <-
    driverExecuteQuery (mkQueryArgs (genCountQuery table (FiltersList []) schema) false)
      false ;;
  match recordset (data countResults) with
  | Some records =>
      ret (match find (fun row => truthy (rowProperty "total" row)) records with
           | Some rowWithTotal => rowProperty "total" rowWithTotal
           | None => Js.Number 0
           end)
  | None => throw (TypeError "Cannot read properties of undefined (reading 'find')")
  end.

(** The query of [getTableDescription]; a missing schema is [dbo]. *)
Definition getTableDescriptionSql (table : string) (schema : option string) : string :=
  let schema := match schema with Some s => s | None => "dbo" end in
  "SELECT *
      FROM fn_listextendedproperty (
        'MS_Description',
        'schema',
        '" ++
  escapeString schema ++
  "',
        'table',
        '" ++
  escapeString table ++
  "',
        default,
      default);
    ".

(** [getTableDescription(table, schema)].
<<
  const data = await this.driverExecuteQuery({ query })
  if (!data || !data.recordset || data.recordset.length === 0) {
    return null
  }
  return data.recordset[0].MS_Description
>> *)
Definition getTableDescription (table : string) (schema : option string) : M Js.value :=
  result <- driverExecuteQuery (mkQueryArgs (getTableDescriptionSql table schema) false)
              false ;;
  match resultRecordset result with
  | None => ret Js.Null
  | Some [] => ret Js.Null
  | Some (row :: _) => ret (rowProperty "MS_Description" row)
  end.

(** The statement of [setTableDescription] for the procedure [f]. *)
Definition setTableDescriptionSql (f table desc schema : string) : string :=
  "
    EXEC " ++
  f ++
  "
      @name = N'MS_Description',
      @value = N" ++
  dialectEscapeString (Js.Str desc) true ++
  ",
      @level0type = N'SCHEMA', @level0name = " ++
  dialectWrapIdentifier schema ++
  ",
      @level1type = N'TABLE',  @level1name = " ++
  dialectWrapIdentifier table ++
  ";
    ".

(** [setTableDescription(table, desc, schema)]. *)
Definition setTableDescription (table desc schema : string) : M string :=
  existingDescription <- getTableDescription table (Some schema) ;;
  let f := if truthy existingDescription
           then "sp_updateextendedproperty" else "sp_addextendedproperty" in
  _ <- executeQuery (setTableDescriptionSql f table desc schema) false ;;
  ret "".

(** [getSchema()]: [data.recordsets[0].schema]. *)
Definition getSchemaSql : string := "SELECT schema_name() AS 'schema'".

Definition getSchema : M Js.value :=
  r <- driverExecuteQuery (mkQueryArgs getSchemaSql false) false ;;
  match recordsets (data r) with
  | first :: _ => ret (recordsetSchema first)
  | [] => throw (TypeError "Cannot read properties of undefined (reading 'schema')")
  end.

(** The two texts of [truncateAllTables]. *)
Definition truncateListSql (schema : Js.value) : string :=
  "
      SELECT table_name
      FROM INFORMATION_SCHEMA.TABLES
      WHERE table_schema = '" ++
  Js.toString schema ++
  "'
      AND table_type NOT LIKE '%VIEW%'
    ".

Definition truncateOneSql (schema : Js.value) (row : Row) : string :=
  "
      DELETE FROM " ++
  Js.toString (wrapIdentifier schema) ++
  "." ++
  Js.toString (wrapIdentifier (rowProperty "table_name" row)) ++
  "
      DBCC CHECKIDENT ('" ++
  Js.toString schema ++
  "." ++
  Js.toString (rowProperty "table_name" row) ++
  "', RESEED, 0);
    ".

(** [truncateAllTables()]. *)
Definition truncateAllTables : M unit :=
  schema <- getSchema ;;
  r <- driverExecuteQuery (mkQueryArgs (truncateListSql schema) false) false ;;
  match recordset (data r) with
  | Some records =>
      let truncateAll := Js.join "" (map (truncateOneSql schema) records) in
      _ <- driverExecuteQuery (mkQueryArgs truncateAll true) false ;;
      ret tt
  | None => throw (TypeError "Cannot read properties of undefined (reading 'map')")
  end.

(** [duplicateTable(tableName, duplicateTableName, schema)]. *)
Definition duplicateTable (tableName duplicateTableName schema : string) : M unit :=
  _ <- driverExecuteQuery
         (mkQueryArgs (duplicateTableSql tableName duplicateTableName schema) false)
         false ;;
  ret tt.

End FurtherMethods.

(* ===================================================================== *)
(** ** A second server: composite key, stored description, failing read *)
(* ===================================================================== *)

Module Demo2.

Definition demoDialect : DialectData :=
  {| dialectWrapIdentifier := fun s => "[" ++ s ++ "]" |}.

Definition keyRows : list Row :=
  [ RowObject [("COLUMN_NAME", Js.Str "order_id"); ("ORDINAL_POSITION", Js.Number 1)];
    RowObject [("COLUMN_NAME", Js.Str "line_no"); ("ORDINAL_POSITION", Js.Number 2)] ].

Definition answer (records : list Row) : DriverData :=
  mkDriverData [mkRecordset records ColumnsUndefined] (Some records)
    [Z.of_nat (length records)] None.

(** The server holds the [name] of one row, as in [Demo], but a read of
    that row times out. *)
Definition demoRequest (s : string) (q : string) (mode : bool)
    : (exn + DriverData) * string :=
  if String.eqb q (getPrimaryKeysSql "order_lines" "dbo") then (inr (answer keyRows), s)
  else if String.eqb q (@genCountQuery Demo.demoUtils "t" (FiltersList []) (Some "dbo"))
  then (inr (answer [RowObject [("total", Js.Number 0)]]), s)
  else if String.eqb q (@getTableDescriptionSql Demo.demoUtils "t" (Some "dbo"))
  then (inr (answer [RowObject [("MS_Description", Js.Str "old text")]]), s)
  else if String.eqb q getSchemaSql
  then (inr (answer [RowObject [("schema", Js.Str "sales")]]), s)
  else if String.eqb q (Demo.batchOf Demo.goodUpdate)
  then (inr (mkDriverData [] None [1] None), "x")
  else if String.eqb q Demo.reselectQuery then (inl (DriverError "ETIMEOUT"), s)
  else (inr (mkDriverData [mkRecordset [] ColumnsUndefined] (Some []) [0] None), s).

Definition demoDriver : Driver :=
  {| db := string; poolConnect := fun _ _ => None; request := demoRequest |}.

Definition start : @World demoDriver :=
  @mkWorld demoDriver (plainClient true None) "old" [].

(** A server that cannot be reached. *)
Definition offlineDriver : Driver :=
  {| db := string;
     poolConnect := fun _ _ => Some (DriverError "ESOCKET");
     request := demoRequest |}.

Definition offline : @World offlineDriver :=
  @mkWorld offlineDriver (plainClient false None) "old" [].

End Demo2.

(* ===================================================================== *)
(** ** Routine introspection: reshaping the catalog rows *)
(* ===================================================================== *)

Definition lowerChar (a : ascii) : ascii :=
  let n := nat_of_ascii a in
  if (Nat.leb 65 n && Nat.leb n 90)%bool then ascii_of_nat (n + 32) else a.

(** [s.toLowerCase()] on ASCII text. *)
Fixpoint toLowerCase (s : string) : string :=
  match s with
  | EmptyString => EmptyString
  | String a r => String (lowerChar a) (toLowerCase r)
  end.

(** A row of the routine query; [routine_type] is [None] for [null]. *)
Record RoutineRow : Type := mkRoutineRow {
  routine_id : string;
  routine_schema : Js.value;
  routine_name : Js.value;
  routine_type : option string;
  routine_data_type : Js.value
}.

(** A row of the parameter query. *)
Record ParamRow : Type := mkParamRow {
  specific_name : string;
  parameter_name : Js.value;
  char_length : Js.value;
  param_data_type : Js.value
}.

Record RoutineParam : Type := mkRoutineParam {
  rp_name : Js.value;
  rp_type : Js.value;
  rp_length : Js.value
}.

Record Routine : Type := mkRoutine {
  rt_schema : Js.value;
  rt_name : Js.value;
  rt_type : string;
  rt_returnType : Js.value;
  rt_id : string;
  rt_routineParams : list RoutineParam
}.

(** The property names every plain object inherits from its prototype. *)
Definition objectPrototypeKeys : list string :=
  [ "constructor"; "__defineGetter__"; "__defineSetter__"; "hasOwnProperty";
    "__lookupGetter__"; "__lookupSetter__"; "isPrototypeOf";
    "propertyIsEnumerable"; "toString"; "valueOf"; "__proto__";
    "toLocaleString" ].

(** What [o[k]] finds on a plain object: an own property, a member of the
    prototype, or nothing. *)
Inductive Property (V : Type) : Type :=
| Own (v : V)
| Inherited
| Missing.

Arguments Own {V} v.
Arguments Inherited {V}.
Arguments Missing {V}.

Definition getProperty {V} (k : string) (o : Js.object V) : Property V :=
  match JsObject.lookup k o with
  | Some v => Own v
  | None => if existsb (String.eqb k) objectPrototypeKeys then Inherited else Missing
  end.

(** [{name: p.parameter_name, type: p.data_type, length: p.char_length || undefined}]. *)
Definition routineParamOf (p : ParamRow) : RoutineParam :=
  mkRoutineParam (parameter_name p) (param_data_type p)
    (if truthy (char_length p) then char_length p else Js.Undefined).

(** [row.routine_type ? row.routine_type.toLowerCase() : 'function']. *)
Definition routineTypeOf (row : RoutineRow) : string :=
  match routine_type row with
  | Some t => if Js.truthyString t then toLowerCase t else "function"
  | None => "function"
  end.

Definition routineWith (row : RoutineRow) (params : list ParamRow) : Routine :=
  mkRoutine (routine_schema row) (routine_name row) (routineTypeOf row)
    (routine_data_type row) (routine_id row) (map routineParamOf params).

(** The record built for one routine row: [grouped[row.id] || []] and then
    [params.map]. A member of the prototype is truthy and has no [map]:
    [None] is the resulting [TypeError]. *)
Definition routineOf (grouped : Js.object (list ParamRow)) (row : RoutineRow)
    : option Routine :=
  match getProperty (routine_id row) grouped with
  | Own params => Some (routineWith row params)
  | Missing => Some (routineWith row [])
  | Inherited => None
  end.

(** [listRoutines] after its two queries, on the two record sets. *)
Definition routinesOf (routines : list RoutineRow) (params : list ParamRow)
    : option (list Routine) :=
  let grouped := groupBy specific_name params in
  mapOption (routineOf grouped) routines.

(* ===================================================================== *)
(** ** Variations of a connection *)
(* ===================================================================== *)

(** The same server with other values in some of its fields. *)
Definition withTrustSetting (v : Js.value) (server : ConnectionServer)
    : ConnectionServer :=
  let c := server_config server in
  mkConnectionServer
    (mkServerConfig (sc_user c) (sc_password c) (sc_host c) (sc_port c)
       (sc_applicationName c) (sc_domain c) (sc_localHost c) (sc_localPort c)
       v (sc_ssl c) (sc_sslCaFile c) (sc_sslCertFile c) (sc_sslKeyFile c)
       (sc_sslRejectUnauthorized c))
    (sshTunnel server).

Definition withHostPort (host port : Js.value) (server : ConnectionServer)
    : ConnectionServer :=
  let c := server_config server in
  mkConnectionServer
    (mkServerConfig (sc_user c) (sc_password c) host port
       (sc_applicationName c) (sc_domain c) (sc_localHost c) (sc_localPort c)
       (sc_trustServerCertificate c) (sc_ssl c) (sc_sslCaFile c) (sc_sslCertFile c)
       (sc_sslKeyFile c) (sc_sslRejectUnauthorized c))
    (sshTunnel server).

Definition sampleServer : ConnectionServer :=
  mkConnectionServer
    (mkServerConfig (Js.Str "sa") (Js.Str "secret") (Js.Str "db.internal")
       (Js.Number 1433) Js.Undefined Js.Undefined (Js.Str "127.0.0.1")
       (Js.Number 50001) (Js.Bool true) (Js.Bool true) (Some "ca.pem") None None
       (Js.Bool true))
    (Js.Bool true).

Definition sampleFiles (path : string) : option string :=
  if String.eqb path "ca.pem" then Some "-----BEGIN CERTIFICATE-----" else None.

(* ===================================================================== *)
(** ** The year a banner states *)
(* ===================================================================== *)

(** [ds] is the run of digits of the leftmost occurrence of
    [SQL Server <digits>] in [s]: the digits follow the words, the run is
    not empty and ends where [rest] starts, and no occurrence of the
    pattern starts further left. *)
Definition LeftmostYear (s ds : string) : Prop :=
  exists pre rest,
    s = pre ++ "SQL Server " ++ ds ++ rest
    /\ ds <> ""
    /\ JsObject.allDigits ds = true
    /\ startsWithDigit rest = false
    /\ forall p d r,
         Js.isDigit d = true -> s = p ++ "SQL Server " ++ String d r ->
         (String.length pre <= String.length p)%nat.

(** A server of the 2008 release, which has no OFFSET/FETCH. *)
Module Legacy.

Definition banner : string :=
  "Microsoft SQL Server 2008 R2 (SP3) - 10.50.6000.34 (X64)".

Definition versionRows : list Row := [RowObject [("version", Js.Str banner)]].

Definition versionData : DriverData :=
  mkDriverData [mkRecordset versionRows ColumnsUndefined] (Some versionRows) [1] None.

Definition pageRows : list Row :=
  [ RowObject [("id", Js.Number 1); ("name", Js.Str "ada"); ("RowNumber", Js.Number 1)];
    RowObject [("id", Js.Number 2); ("name", Js.Str "bob"); ("RowNumber", Js.Number 2)] ].

Definition createTable : string := "create table [u] ([id] int)".

(** The version query is answered with the banner, the data definition
    statement with no record set and no count of affected rows, every
    other query with a page of two rows. *)
Definition legacyRequest (s : unit) (q : string) (mode : bool)
    : (exn + DriverData) * unit :=
  if String.eqb q versionQuery then (inr versionData, s)
  else if String.eqb q createTable then (inr (mkDriverData [] None [] None), s)
  else (inr (mkDriverData [mkRecordset pageRows ColumnsUndefined] (Some pageRows) [2]
               (Some (RowObject [("id", Js.Number 1); ("name", Js.Str "ada");
                                 ("RowNumber", Js.Number 1)]))), s).

Definition legacyDriver : Driver :=
  {| db := unit; poolConnect := fun _ _ => None; request := legacyRequest |}.

Definition start : @World legacyDriver :=
  @mkWorld legacyDriver (plainClient false None) tt [].

Definition opened : @World legacyDriver :=
  @mkWorld legacyDriver (plainClient true None) tt [versionQuery].

End Legacy.


(* ===================================================================== *)
(** ** The server's side of a transaction *)
(* ===================================================================== *)

(** What the server makes of one statement of a batch: a change of the
    XACT_ABORT setting, a transaction control statement, or a statement
    that reads or changes data. *)
Inductive Statement : Type :=
| SetXactAbort (on : bool)
| BeginTransaction
| CommitTransaction
| RollbackTransaction
| DataStatement (text : string).

(** A connection to the server: the data as the connection sees them, its
    XACT_ABORT setting and, while a transaction is open, the data as they
    were when the outermost BEGIN TRANSACTION ran together with the number
    of BEGIN TRANSACTION nested inside it. *)
Record Session (Store : Type) : Type := mkSession {
  store : Store;
  xactAbort : bool;
  transaction : option (Store * nat)
}.

(** How Transact-SQL runs a batch. The data, the effect of one data
    statement on them ([runData], with the error of a statement that
    fails), the parser of a batch text ([None] for a text that does not
    compile), the result set of a batch that ran and the opening of a pool
    are left open. *)
Section ServerModel.

Variable Store : Type.
Variable runData : Store -> string -> exn + Store.
Variable parseBatch : string -> option (list Statement).
Variable answer : Store -> string -> bool -> DriverData.
Variable openPool : option DbConfig -> option exn.

(** ROLLBACK: the data are again what they were when the outermost
    transaction began, and no transaction is open. *)
Definition rollback (s : Session Store) : Session Store :=
  match transaction s with
  | Some (before, _) => mkSession before (xactAbort s) None
  | None => s
  end.

(** One statement. COMMIT and ROLLBACK without a transaction are errors; a
    data statement that fails changes nothing by itself. *)
Definition runStatement (st : Statement) (s : Session Store)
    : exn + Session Store :=
  match st with
  | SetXactAbort on => inr (mkSession (store s) on (transaction s))
  | BeginTransaction =>
      inr (mkSession (store s) (xactAbort s)
             (match transaction s with
              | None => Some (store s, 0%nat)
              | Some (before, depth) => Some (before, S depth)
              end))
  | CommitTransaction =>
      match transaction s with
      | None => inl (DriverError "EREQUEST")
      | Some (_, O) => inr (mkSession (store s) (xactAbort s) None)
      | Some (before, S depth) =>
          inr (mkSession (store s) (xactAbort s) (Some (before, depth)))
      end
  | RollbackTransaction =>
      match transaction s with
      | None => inl (DriverError "EREQUEST")
      | Some _ => inr (rollback s)
      end
  | DataStatement text =>
      match runData (store s) text with
      | inr store' => inr (mkSession store' (xactAbort s) (transaction s))
      | inl e => inl e
      end
  end.

(** The statements of a batch in order. With XACT_ABORT on, the first
    error rolls the open transaction back and ends the batch; with
    XACT_ABORT off, the failed statement alone is undone and the batch goes
    on. The error reported is the first one. *)
Fixpoint runStatements (stmts : list Statement) (s : Session Store)
    : option exn * Session Store :=
  match stmts with
  | [] => (None, s)
  | st :: rest =>
      match runStatement st s with
      | inr s' => runStatements rest s'
      | inl e =>
          if xactAbort s then (Some e, rollback s)
          else (Some e, snd (runStatements rest s))
      end
  end.

(** [request.query(text)] against this server. *)
Definition serverRequest (s : Session Store) (q : string) (mode : bool)
    : (exn + DriverData) * Session Store :=
  match parseBatch q with
  | None => (inl (DriverError "EREQUEST"), s)
  | Some stmts =>
      match runStatements stmts s with
      | (Some e, s') => (inl e, s')
      | (None, s') => (inr (answer (store s') q mode), s')
      end
  end.

Definition serverDriver : Driver :=
  {| db := Session Store;
     poolConnect := fun config _ => openPool config;
     request := serverRequest |}.


End ServerModel.



(** The pieces of a text between the occurrences of a separator. *)
Fixpoint splitOn (sep : ascii) (s : string) : list string :=
  match s with
  | EmptyString => [EmptyString]
  | String c r =>
      if Ascii.eqb c sep then EmptyString :: splitOn sep r
      else
        match splitOn sep r with
        | [] => [String c EmptyString]
        | piece :: pieces => String c piece :: pieces
        end
  end.

(** A server with one table [t] of names, none of which may be NULL. *)
Module Shop.

Definition insertAda : string := "insert into [t] ([name]) values ('ada')".

(** [insertAda] adds a row, [Demo.goodUpdate] renames the first row,
    [Demo.badUpdate] violates the NOT NULL constraint, and any other
    statement changes nothing. *)
Definition runData (names : list string) (text : string) : exn + list string :=
  if String.eqb text insertAda then inr (names ++ ["ada"])%list
  else if String.eqb text Demo.goodUpdate then
    inr (match names with
         | [] => []
         | _ :: rest => "x" :: rest
         end)
  else if String.eqb text Demo.badUpdate then inl (DriverError "EREQUEST")
  else inr names.

Definition statementOf (text : string) : Statement :=
  if String.eqb text "SET XACT_ABORT ON" then SetXactAbort true
  else if String.eqb text "SET XACT_ABORT OFF" then SetXactAbort false
  else if String.eqb text "BEGIN TRANSACTION" then BeginTransaction
  else if String.eqb text "COMMIT" then CommitTransaction
  else if String.eqb text "ROLLBACK" then RollbackTransaction
  else DataStatement text.

Definition parseBatch (q : string) : option (list Statement) :=
  Some (map statementOf (splitOn ";"%char q)).

Definition rowsOf (names : list string) : list Row :=
  mapi (fun name idx =>
          RowObject [("id", Js.Number (Z.of_nat (S idx))); ("name", Js.Str name)])
       names.

(** The re-selection query reads the row with [id] 1. *)
Definition answer (names : list string) (q : string) (mode : bool) : DriverData :=
  if String.eqb q Demo.reselectQuery then
    let found := firstn 1 (rowsOf names) in
    mkDriverData [mkRecordset found ColumnsUndefined] (Some found)
      [Z.of_nat (length found)] (nth_error found 0)
  else mkDriverData [] None [1] None.

Definition shopDriver : Driver :=
  serverDriver runData parseBatch answer (fun _ => None).

Definition start : @World shopDriver :=
  @mkWorld shopDriver (plainClient false None) (mkSession ["bob"] false None) [].

(** One row to insert, then an update that fails. *)
Definition insertThenBadUpdate : @Changes Demo.demoUtils :=
  @mkChanges Demo.demoUtils (Some [insertAda]) (Some [Demo.badUpdate]) None.

Definition insertOnly : @Changes Demo.demoUtils :=
  @mkChanges Demo.demoUtils (Some [insertAda]) None None.

End Shop.


(* ===================================================================== *)
(** * Properties *)
(* ===================================================================== *)

(** ** Strings *)

Lemma append_empty_r (s : string) : s ++ "" = s.
Proof. induction s as [|a s IH]; simpl; [reflexivity | now rewrite IH]. Qed.

Lemma append_assoc (a b c : string) : (a ++ b) ++ c = a ++ (b ++ c).
Proof. induction a as [|x a IH]; simpl; [reflexivity | now rewrite IH]. Qed.

(** Replacing every opening bracket by an opening bracket changes nothing. *)
Lemma replaceAll_same (c : ascii) (s : string) :
  Js.replaceAll c (String c "") s = s.
Proof.
  induction s as [|a s IH]; simpl; [reflexivity|].
  destruct (Ascii.eqb_spec a c) as [->|_]; simpl; now rewrite IH.
Qed.

Lemma wrapIdentifier_star : wrapIdentifier (Js.Str "*") = Js.Str "*".
Proof. reflexivity. Qed.

Lemma wrapIdentifier_brackets (s : string) :
  s <> "*" -> wrapIdentifier (Js.Str s) = Js.Str ("[" ++ s ++ "]").
Proof.
  intros Hs. unfold wrapIdentifier.
  destruct (String.eqb_spec s "*") as [E|_]; [contradiction|].
  now rewrite replaceAll_same.
Qed.

Lemma wrapIdentifierText_cases (s : string) :
  wrapIdentifierText s = "*" \/ wrapIdentifierText s = "[" ++ s ++ "]".
Proof.
  unfold wrapIdentifierText.
  destruct (String.eqb_spec s "*") as [->|Hs]; [now left|].
  right. now rewrite wrapIdentifier_brackets.
Qed.

(** Without a closing bracket in the name, the bracketed form reads back as
    the name, with nothing left over. *)
Lemma scanBracketBody_plain (s : string) :
  hasClosingBracket s = false -> scanBracketBody (s ++ "]") = Some (s, "").
Proof.
  induction s as [|a s IH]; simpl; [reflexivity|].
  intros H. apply orb_false_iff in H as [Ha Hs].
  rewrite Ha, (IH Hs). reflexivity.
Qed.

Lemma wrapIdentifier_plain_roundtrip (s : string) :
  s <> "*" -> hasClosingBracket s = false ->
  wrapIdentifierText s = "[" ++ s ++ "]"
  /\ scanBracketed (wrapIdentifierText s) = Some (s, "").
Proof.
  intros Hstar Hs. unfold wrapIdentifierText.
  rewrite (wrapIdentifier_brackets Hstar). simpl. split; [reflexivity|].
  now apply scanBracketBody_plain.
Qed.

(** Reading a bracketed identifier consumes its name, one more character
    for every closing bracket in the name, and the terminator. *)
Lemma scanBracketBody_length (n : nat) :
  forall t name rest,
    (String.length t <= n)%nat ->
    scanBracketBody t = Some (name, rest) ->
    String.length t
    = (String.length name + countClosingBrackets name + 1 + String.length rest)%nat.
Proof.
  induction n as [|n IH]; intros t name rest Hlen.
  - destruct t; [discriminate | cbn in Hlen; lia].
  - destruct t as [|a t]; [discriminate|]. cbn [scanBracketBody].
    destruct (Ascii.eqb a "]"%char) eqn:Ea.
    + destruct t as [|b t'].
      * intros H. inversion H. reflexivity.
      * destruct (Ascii.eqb b "]"%char) eqn:Eb.
        -- destruct (scanBracketBody t') as [[nm r]|] eqn:Es; [|discriminate].
           intros H. inversion H; subst. cbn in Hlen |- *.
           rewrite (IH t' nm rest) by (try lia; assumption). lia.
        -- intros H. inversion H; subst. cbn. lia.
    + destruct (scanBracketBody t) as [[nm r]|] eqn:Es; [|discriminate].
      intros H. inversion H; subst. cbn in Hlen |- *. rewrite Ea.
      rewrite (IH t nm rest) by (try lia; assumption). lia.
Qed.

Lemma length_append (a b : string) :
  String.length (a ++ b) = (String.length a + String.length b)%nat.
Proof. induction a as [|x a IH]; cbn; [reflexivity | now rewrite IH]. Qed.

Lemma countClosingBrackets_zero (s : string) :
  countClosingBrackets s = 0%nat -> hasClosingBracket s = false.
Proof.
  induction s as [|a s IH]; cbn; [reflexivity|].
  destruct (Ascii.eqb a "]"%char); cbn; [discriminate | exact IH].
Qed.

(** Every name that holds a closing bracket is affected: its wrapped form
    never reads back as that name. *)
Lemma wrapIdentifier_bracket_breaks_out (s : string) :
  hasClosingBracket s = true ->
  scanBracketed (wrapIdentifierText s) <> Some (s, "").
Proof.
  intros Hs H.
  destruct (wrapIdentifierText_cases s) as [E|E]; rewrite E in H.
  - discriminate.
  - cbn in H.
    pose proof (@scanBracketBody_length _ (s ++ "]") s "" (le_n _) H) as Hl.
    rewrite length_append in Hl. cbn in Hl.
    rewrite countClosingBrackets_zero in Hs by lia. discriminate.
Qed.

(** C1. [wrapIdentifier] brackets a name and lets the wildcard through, but
    a closing bracket inside the name is copied as it is: the name [a]b]
    becomes the text [[a]b]], which Transact-SQL reads as the identifier [a]
    followed by the loose text [b]]. The replacement the method performs
    swaps opening brackets for themselves and leaves the closing one. *)
Theorem wrapIdentifier_closing_bracket_unescaped :
  wrapIdentifier (Js.Str "a]b") = Js.Str "[a]b]"
  /\ scanBracketed "[a]b]" = Some ("a", "b]")
  /\ scanBracketed "[a]b]" <> Some ("a]b", "")
  /\ wrapIdentifier (Js.Str "*") = Js.Str "*"
  /\ wrapIdentifier (Js.Str "name") = Js.Str "[name]".
Proof. repeat split; try reflexivity. discriminate. Qed.

(** ** Server version *)

Lemma stripPrefix_Some (p s r : string) :
  Js.stripPrefix p s = Some r -> s = p ++ r.
Proof.
  revert s. induction p as [|a p IH]; intros s H; simpl in *.
  - now inversion H.
  - destruct s as [|b s]; [discriminate|].
    destruct (Ascii.eqb_spec a b) as [->|_]; [|discriminate].
    now rewrite (IH _ H).
Qed.

Lemma stripPrefix_append (p r : string) : Js.stripPrefix p (p ++ r) = Some r.
Proof.
  induction p as [|a p IH]; cbn; [reflexivity|].
  now rewrite Ascii.eqb_refl.
Qed.

Lemma takeDigits_head (r ds : string) (d : ascii) :
  Js.takeDigits r = String d ds ->
  exists rest, r = String d rest /\ Js.isDigit d = true.
Proof.
  destruct r as [|a r]; simpl; [discriminate|].
  destruct (Js.isDigit a) eqn:Ea; [|discriminate].
  intros H. inversion H; subst. now exists r.
Qed.

Lemma matchYearHere_occurs (s ds : string) :
  matchYearHere s = Some ds -> YearPatternOccurs s.
Proof.
  unfold matchYearHere.
  destruct (Js.stripPrefix "SQL Server " s) as [r|] eqn:Ep; [|discriminate].
  destruct (Js.takeDigits r) as [|d ds'] eqn:Ed; [discriminate|].
  intros _. apply stripPrefix_Some in Ep.
  destruct (takeDigits_head _ Ed) as (rest & -> & Hd).
  exists "", d, rest. split; [exact Hd | exact Ep].
Qed.

Lemma yearRegexExec_occurs (s ds : string) :
  yearRegexExec s = Some ds -> YearPatternOccurs s.
Proof.
  induction s as [|a s IH].
  - unfold yearRegexExec. destruct (matchYearHere "") eqn:E; [|discriminate].
    intros _. eapply matchYearHere_occurs; eassumption.
  - cbn [yearRegexExec].
    destruct (matchYearHere (String a s)) eqn:E.
    + intros _. eapply matchYearHere_occurs; eassumption.
    + intros H. destruct (IH H) as (pre & d & rest & Hd & ->).
      exists (String a pre), d, rest. split; [exact Hd | reflexivity].
Qed.

Lemma yearRegexExec_absent (s : string) :
  ~ YearPatternOccurs s -> yearRegexExec s = None.
Proof.
  intros H. destruct (yearRegexExec s) eqn:E; [|reflexivity].
  exfalso. apply H. eapply yearRegexExec_occurs; eassumption.
Qed.

Lemma yearRegexExec_here (s ds : string) :
  matchYearHere s = Some ds -> yearRegexExec s = Some ds.
Proof.
  intros H. destruct s; [discriminate|]. cbn [yearRegexExec]. now rewrite H.
Qed.

Lemma matchYearHere_head (s ds : string) :
  matchYearHere s = Some ds ->
  exists d rest, Js.isDigit d = true /\ s = "SQL Server " ++ String d rest.
Proof.
  unfold matchYearHere.
  destruct (Js.stripPrefix "SQL Server " s) as [r|] eqn:Ep; [|discriminate].
  destruct (Js.takeDigits r) as [|d ds'] eqn:Ed; [discriminate|].
  intros _. apply stripPrefix_Some in Ep.
  destruct (takeDigits_head _ Ed) as (rest & -> & Hd).
  now exists d, rest.
Qed.

Lemma takeDigits_run (ds rest : string) :
  JsObject.allDigits ds = true -> startsWithDigit rest = false ->
  Js.takeDigits (ds ++ rest) = ds.
Proof.
  unfold JsObject.allDigits. intros Hds Hrest.
  induction ds as [|d ds IH]; cbn [append list_ascii_of_string forallb] in *.
  - destruct rest as [|a rest]; [reflexivity|].
    cbn [startsWithDigit] in Hrest. cbn [Js.takeDigits]. now rewrite Hrest.
  - apply andb_true_iff in Hds as [Hd Hds].
    cbn [Js.takeDigits]. rewrite Hd. now rewrite (IH Hds).
Qed.

(** The regular expression captures the digits of the leftmost occurrence. *)
Lemma yearRegexExec_leftmost (s ds : string) :
  LeftmostYear s ds -> yearRegexExec s = Some ds.
Proof.
  intros (pre & rest & -> & Hne & Hds & Hrest & Hleft).
  induction pre as [|a pre IH].
  - apply yearRegexExec_here. unfold matchYearHere.
    change ("" ++ "SQL Server " ++ ds ++ rest) with ("SQL Server " ++ (ds ++ rest)).
    rewrite stripPrefix_append, (takeDigits_run _ _ Hds Hrest).
    destruct ds; [contradiction | reflexivity].
  - change ((String a pre) ++ "SQL Server " ++ ds ++ rest)
      with (String a (pre ++ "SQL Server " ++ ds ++ rest)) in *.
    cbn [yearRegexExec].
    destruct (matchYearHere (String a (pre ++ "SQL Server " ++ ds ++ rest))) as [ds'|] eqn:E.
    + destruct (matchYearHere_head _ E) as (d & r & Hd & Hs).
      specialize (Hleft "" d r Hd Hs). cbn in Hleft. lia.
    + apply IH. intros p d r Hd Hs.
      assert (H := Hleft (String a p) d r Hd).
      change (String a p ++ "SQL Server " ++ String d r)
        with (String a (p ++ "SQL Server " ++ String d r)) in H.
      rewrite <- Hs in H. specialize (H eq_refl). cbn [String.length] in H. lia.
Qed.

Lemma versionOf_leftmost (v : Js.value) (ds : string) :
  LeftmostYear (Js.toString v) ds ->
  releaseYear (versionOf v) = numberOr (toDouble (Js.digitsToZ ds)) (Finite 2017).
Proof.
  intros H. unfold versionOf. now rewrite (yearRegexExec_leftmost H).
Qed.

Lemma versionOf_absent (v : Js.value) :
  ~ YearPatternOccurs (Js.toString v) ->
  releaseYear (versionOf v) = Finite 2017 /\ supportOffsetFetch (versionOf v) = true.
Proof.
  intros H. unfold versionOf. rewrite (yearRegexExec_absent H). now split.
Qed.

Lemma versionOf_offsetFetch (v : Js.value) :
  supportOffsetFetch (versionOf v) = numberAtLeast 2012 (releaseYear (versionOf v)).
Proof. reflexivity. Qed.

Lemma versionOf_versionString (v : Js.value) : versionString (versionOf v) = v.
Proof. reflexivity. Qed.

(** ** The monad of methods and the driver *)

Section MethodFacts.

Context {driver : Driver} {utils : Utils}.

Lemma tryCatch_rethrow {A} (m : M A) (w : World) :
  tryCatch m (fun ex => throw ex) w = m w.
Proof. unfold tryCatch, throw. now destruct (m w) as [[e|a] w']. Qed.

(** With the driver in reach, [driverExecuteQuery] is one request: the
    query text joins the texts sent, the server moves as the request says,
    and the pool is kept. *)
Lemma driverExecuteQuery_reachable (q : QueryArgs) (mode : bool) (w : World) :
  Reachable w ->
  driverExecuteQuery q mode w =
    (match fst (request (server w) (query q) mode) with
     | inl e => inl e
     | inr d => inr (mkDriverResult d (sum (rowsAffectedList d)))
     end,
     mkWorld (connectedClient (client w))
             (snd (request (server w) (query q) mode))
             (sent w ++ [query q])%list).
Proof.
  destruct w as [[conn ver srv dbn cfg] s l]. unfold Reachable; simpl.
  unfold driverExecuteQuery, runWithConnection, runQuery, setConnection,
    connectedClient; simpl.
  intros [-> | Hp].
  - now destruct (request s (query q) mode) as [[e|d] s'].
  - rewrite Hp. destruct conn;
      now destruct (request s (query q) mode) as [[e|d] s'].
Qed.

Lemma driverExecuteQuery_unreachable (q : QueryArgs) (mode : bool) (w : World) e :
  connection (client w) = false -> poolConnect (dbConfig (client w)) (server w) = Some e ->
  driverExecuteQuery q mode w = (inl e, w).
Proof.
  intros Hc Hp. unfold driverExecuteQuery, runWithConnection.
  now rewrite Hc, Hp.
Qed.

Lemma driverExecuteQuery_rowsAffected (q : QueryArgs) (mode : bool)
    (w w' : World) (r : DriverResult) :
  driverExecuteQuery q mode w = (inr r, w') ->
  rowsAffected r = sum (rowsAffectedList (data r)).
Proof.
  unfold driverExecuteQuery, runWithConnection, runQuery.
  destruct (connection (client w)).
  - destruct (request (server w) (query q) mode) as [[e|d] s']; intros H;
      inversion H; reflexivity.
  - destruct (poolConnect (dbConfig (client w)) (server w)); [discriminate|].
    simpl. destruct (request (server w) (query q) mode) as [[e|d] s']; intros H;
      inversion H; reflexivity.
Qed.

Lemma driverExecuteQuery_keeps_reach (q : QueryArgs) (mode : bool) (w : World) :
  Reachable w -> Reachable (snd (driverExecuteQuery q mode w)).
Proof.
  intros H. rewrite (driverExecuteQuery_reachable q mode H). now left.
Qed.

Lemma getVersion_eq (w : World) :
  getVersion w =
    match driverExecuteQuery (mkQueryArgs versionQuery true) false w with
    | (inr r, w') =>
        (inr (versionOf (versionStringOf
                (parseResults r (identifyCommands versionQuery) false))), w')
    | (inl e, w') => (inl e, w')
    end.
Proof.
  unfold getVersion, executeQuery, bind, ret.
  now destruct (driverExecuteQuery _ _ w) as [[e|r] w'].
Qed.

Lemma getVersion_sent (w : World) :
  Reachable w -> sent (snd (getVersion w)) = (sent w ++ [versionQuery])%list.
Proof.
  intros H. rewrite getVersion_eq, (driverExecuteQuery_reachable _ _ H).
  now destruct (fst (request _ _ _)).
Qed.


End MethodFacts.

Lemma mapiFrom_length {A B} (f : A -> nat -> B) (xs : list A) (k : nat) :
  length (mapiFrom k f xs) = length xs.
Proof.
  revert k. induction xs as [|x xs IH]; intros k; simpl; [reflexivity|].
  now rewrite IH.
Qed.

Lemma mapiFrom_nth_error {A B} (f : A -> nat -> B) (xs : list A) (k i : nat) :
  nth_error (mapiFrom k f xs) i =
    option_map (fun x => f x (k + i)%nat) (nth_error xs i).
Proof.
  revert k i. induction xs as [|x xs IH]; intros k i; simpl.
  - now destruct i.
  - destruct i as [|i]; simpl.
    + now rewrite Nat.add_0_r.
    + rewrite IH. now rewrite Nat.add_succ_comm.
Qed.

(** ** Version probe *)

(** The banner of the 2008 server states the year 2008. *)
Lemma legacy_banner_year : LeftmostYear Legacy.banner "2008".
Proof.
  exists "Microsoft ", " R2 (SP3) - 10.50.6000.34 (X64)".
  split; [reflexivity|]. split; [discriminate|].
  split; [reflexivity|]. split; [reflexivity|].
  intros p d r _ Hs. unfold Legacy.banner in Hs.
  do 10 (destruct p as [|? p]; [cbn in Hs; discriminate Hs|]).
  cbn [String.length]. lia.
Qed.

(** C9. Whenever the version query is answered, [getVersion] returns a
    descriptor built from the version text of the answer such that: when
    the pattern [SQL Server <digits>] does not occur in that text (the text
    of [undefined] and the empty text included), the release year is 2017
    and OFFSET/FETCH is supported; when it occurs, the release year is the
    number the digits of its leftmost occurrence denote (2017 when that
    number is zero); and OFFSET/FETCH is supported exactly when the release
    year is at least 2012. *)
Theorem getVersion_release_year {driver : Driver} {utils : Utils}
    (w w' : World) (r : DriverResult) :
  driverExecuteQuery (mkQueryArgs versionQuery true) false w = (inr r, w') ->
  exists v,
    getVersion w = (inr v, w')
    /\ versionString v =
         versionStringOf (parseResults r (identifyCommands versionQuery) false)
    /\ (~ YearPatternOccurs (Js.toString (versionString v)) ->
        releaseYear v = Finite 2017 /\ supportOffsetFetch v = true)
    /\ (forall ds, LeftmostYear (Js.toString (versionString v)) ds ->
        releaseYear v = numberOr (toDouble (Js.digitsToZ ds)) (Finite 2017))
    /\ (supportOffsetFetch v = true <-> numberAtLeast 2012 (releaseYear v) = true).
Proof.
  intros H. rewrite getVersion_eq, H.
  eexists. split; [reflexivity|]. split; [reflexivity|]. split; [|split].
  - apply versionOf_absent.
  - apply versionOf_leftmost.
  - now rewrite versionOf_offsetFetch.
Qed.

Lemma getVersion_release_year_witness :
  exists v,
    @getVersion Legacy.legacyDriver Demo.demoUtils Legacy.start
      = (inr v, Legacy.opened)
    /\ versionString v = Js.Str Legacy.banner
    /\ releaseYear v = Finite 2008
    /\ supportOffsetFetch v = false.
Proof.
  destruct (@getVersion_release_year Legacy.legacyDriver Demo.demoUtils
              Legacy.start Legacy.opened (mkDriverResult Legacy.versionData 1)
              eq_refl)
    as (v & Hg & Hs & _ & Hyear & Hiff).
  exists v. split; [exact Hg|]. split; [exact Hs|].
  assert (Hy : releaseYear v = Finite 2008).
  { rewrite (Hyear "2008"); [reflexivity|]. rewrite Hs. exact legacy_banner_year. }
  split; [exact Hy|].
  destruct (supportOffsetFetch v); [|reflexivity].
  destruct Hiff as [Hiff _]. specialize (Hiff eq_refl).
  rewrite Hy in Hiff. discriminate Hiff.
Defined.

(** The defaults at the texts the claim names, a missing version and the
    empty text; a stated year; and a year beyond the integers a number
    holds exactly, which is rounded. *)
Lemma versionOf_missing_or_empty :
  versionOf Js.Undefined = mkVersion true (Finite 2017) Js.Undefined
  /\ versionOf (Js.Str "") = mkVersion true (Finite 2017) (Js.Str "")
  /\ versionOf (Js.Str "Microsoft SQL Server 2008 R2")
     = mkVersion false (Finite 2008) (Js.Str "Microsoft SQL Server 2008 R2")
  /\ versionOf (Js.Str "SQL Server 99999999999999999999")
     = mkVersion true (Finite 100000000000000000000)
         (Js.Str "SQL Server 99999999999999999999").
Proof. repeat split. Qed.

(** ** Parsing the driver's answer *)

Lemma parseRowQueryResult_shape (data : list Row) (affected : Z)
    (command : option string) (columns : Columns) (mode : bool) :
  rowCount (parseRowQueryResult data affected command columns mode)
    = Z.of_nat (length data)
  /\ affectedRows (parseRowQueryResult data affected command columns mode)
    = affected.
Proof. now split. Qed.

(** C6, as stated, fails: a result set with one row whose statement the
    classifier typed UPDATE keeps the label UPDATE. *)
Lemma parseRowQueryResult_label_counterexample :
  let r := parseRowQueryResult [RowObject [("id", Js.Number 1)]] 1
             (Some "UPDATE") ColumnsUndefined false in
  rowCount r = 1 /\ command r = Js.Str "UPDATE" /\ command r <> Js.Str "SELECT".
Proof. repeat split. discriminate. Qed.

(** C6, amended. The label of a parsed result is the type the classifier
    gave its statement whenever it gave one; only without one is a result
    with at least one row, or with no row and an affected-row count of
    zero, labelled SELECT, and a result with no row and another count gets
    the label [false]. *)
Theorem parseRowQueryResult_label (data : list Row) (affected : Z)
    (classified : option string) (columns : Columns) (mode : bool) :
  let r := parseRowQueryResult data affected classified columns mode in
  (forall c, classified = Some c -> c <> "" -> command r = Js.Str c)
  /\ (classified = None \/ classified = Some "" ->
      data <> [] \/ affected = 0 -> command r = Js.Str "SELECT")
  /\ (classified = None \/ classified = Some "" ->
      data = [] -> affected <> 0 -> command r = Js.Bool false).
Proof.
  cbv zeta. unfold parseRowQueryResult; cbn [command].
  split; [|split].
  - intros c -> Hc. destruct c; [contradiction | reflexivity].
  - intros Hl Hsel.
    assert (E : (negb (Nat.eqb (length data) 0) || Z.eqb affected 0)%bool = true).
    { destruct Hsel as [Hd | ->].
      - destruct data; [contradiction | reflexivity].
      - apply orb_true_r. }
    destruct Hl as [-> | ->]; cbn; now rewrite E.
  - intros Hl -> Ha.
    assert (E : Z.eqb affected 0 = false) by now apply Z.eqb_neq.
    destruct Hl as [-> | ->]; cbn; now rewrite E.
Qed.

Lemma parseRowQueryResult_label_witness :
  command (parseRowQueryResult [RowObject [("id", Js.Number 1)]] 1
             (Some "UPDATE") ColumnsUndefined false) = Js.Str "UPDATE"
  /\ command (parseRowQueryResult [] 0 None ColumnsUndefined false) = Js.Str "SELECT"
  /\ command (parseRowQueryResult [] 2 None ColumnsUndefined false) = Js.Bool false.
Proof.
  split; [|split].
  - apply (proj1 (parseRowQueryResult_label [RowObject [("id", Js.Number 1)]] 1
                    (Some "UPDATE") ColumnsUndefined false) "UPDATE");
      [reflexivity | discriminate].
  - apply (proj1 (proj2 (parseRowQueryResult_label [] 0 None ColumnsUndefined false)));
      [left; reflexivity | right; reflexivity].
  - apply (proj2 (proj2 (parseRowQueryResult_label [] 2 None ColumnsUndefined false)));
      [left; reflexivity | reflexivity | discriminate].
Defined.

(** ** Executing a batch *)

(** C5, as stated, fails: position 0 of the answer is not always defined.
    A batch that the driver answers with no record set and no affected
    row, as it answers a data definition statement, gives the empty list
    of results. *)
Lemma executeQuery_results_counterexample :
  exists results,
    fst (@executeQuery Legacy.legacyDriver Demo.demoUtils Legacy.createTable false
           Legacy.opened)
    = inr results
    /\ nth_error results 0 = None.
Proof. exists []. split; reflexivity. Qed.

(** C5, amended. When the driver answers a batch with no record set and a
    positive total of affected rows, [executeQuery] returns exactly one
    result, with no rows, no fields, a row count of zero and the summed
    affected-row count, labelled with the type the classifier gave the first
    statement; with no record set and a total that is not positive it
    returns no result at all, so position 0 is undefined; and when there
    are record sets it returns one result per record set, the one at
    position [i] parsed from record set [i] with the type the classifier
    gave statement [i] (none when the classifier threw or found fewer
    statements). *)
Theorem executeQuery_results {driver : Driver} {utils : Utils}
    (queryText : string) (mode : bool) (w w' : World) (r : DriverResult) :
  driverExecuteQuery (mkQueryArgs queryText true) mode w = (inr r, w') ->
  let total := sum (rowsAffectedList (data r)) in
  let typeAt (i : nat) :=
    match identify queryText with
    | Some types => nth_error types i
    | None => None
    end in
  exists results,
    executeQuery queryText mode w = (inr results, w')
    /\ (recordsets (data r) = [] -> 0 < total ->
        exists p,
          results = [p] /\ nth_error results 0 = Some p
          /\ rows p = [] /\ fields p = [] /\ rowCount p = 0
          /\ affectedRows p = total
          /\ command p = match typeAt 0%nat with
                         | Some c => if Js.truthyString c then Js.Str c else Js.Bool false
                         | None => Js.Bool false
                         end)
    /\ (recordsets (data r) = [] -> total <= 0 ->
        results = [] /\ nth_error results 0 = None)
    /\ (recordsets (data r) <> [] ->
        length results = length (recordsets (data r))
        /\ forall i rs,
             nth_error (recordsets (data r)) i = Some rs ->
             nth_error results i =
               Some (parseRowQueryResult (rs_rows rs) total (typeAt i)
                       (rs_columns rs) mode)).
Proof.
  intros H total typeAt.
  pose proof (driverExecuteQuery_rowsAffected _ _ _ H) as Hsum.
  assert (Ht : forall i, nth_error (identifyCommands queryText) i = typeAt i).
  { intros i. unfold identifyCommands, typeAt.
    destruct (identify queryText); [reflexivity | now destruct i]. }
  unfold executeQuery, bind, ret. rewrite H.
  eexists. split; [reflexivity|]. split; [|split].
  - intros Hrs Hpos. unfold parseResults, resultsOf.
    rewrite Hrs, Hsum. cbn [length Nat.eqb andb].
    apply Z.ltb_lt in Hpos. fold total. rewrite Hpos.
    unfold placeholderRecordsets, mapi. cbn [mapiFrom rs_rows rs_columns].
    rewrite Ht.
    eexists. split; [reflexivity|]. split; [reflexivity|].
    unfold parseRowQueryResult.
    cbn [rows fields rowCount affectedRows command length Nat.eqb negb orb
         parseFields firstRowKeys map Z.of_nat].
    replace (Z.eqb total 0) with false
      by (symmetry; apply Z.eqb_neq; apply Z.ltb_lt in Hpos; lia).
    repeat split; now destruct mode.
  - intros Hrs Hneg. unfold parseResults, resultsOf.
    rewrite Hrs, Hsum. cbn [length Nat.eqb andb]. fold total.
    replace (Z.ltb 0 total) with false by (symmetry; apply Z.ltb_ge; exact Hneg).
    split; reflexivity.
  - intros Hne. unfold parseResults, resultsOf. rewrite Hsum. fold total.
    assert (E : (Nat.eqb (length (recordsets (data r))) 0 && Z.ltb 0 total)%bool
                = false).
    { destruct (recordsets (data r)) as [|x l]; [contradiction | reflexivity]. }
    rewrite E. split.
    + apply mapiFrom_length.
    + intros i rs Hi. unfold mapi. rewrite mapiFrom_nth_error, Hi.
      cbn [option_map Nat.add]. now rewrite Ht.
Qed.

Lemma executeQuery_results_witness :
  exists results,
    @executeQuery Demo.demoDriver Demo.demoUtils (Demo.batchOf Demo.goodUpdate)
      false Demo.opened
      = (inr results,
         @mkWorld Demo.demoDriver (plainClient true None) "x"
           [versionQuery; Demo.batchOf Demo.goodUpdate])
    /\ exists p,
         results = [p] /\ nth_error results 0 = Some p
         /\ rows p = [] /\ fields p = [] /\ rowCount p = 0
         /\ affectedRows p = 1
         /\ command p = Js.Bool false.
Proof.
  destruct (@executeQuery_results Demo.demoDriver Demo.demoUtils
              (Demo.batchOf Demo.goodUpdate) false Demo.opened
              (@mkWorld Demo.demoDriver (plainClient true None) "x"
                 [versionQuery; Demo.batchOf Demo.goodUpdate])
              (mkDriverResult (mkDriverData [] None [1] None) 1)
              eq_refl) as (results & Hrun & Hpad & _).
  exists results. split; [exact Hrun | exact (Hpad eq_refl eq_refl)].
Defined.

(** ** Reading a page of a table *)

Lemma mapiFrom_indices {A B} (f : nat -> B) (xs : list A) (k : nat) :
  mapiFrom k (fun _ idx => f idx) xs = map f (seq k (length xs)).
Proof.
  revert k. induction xs as [|x xs IH]; intros k; cbn; [reflexivity|].
  now rewrite IH.
Qed.

(** C10. [selectTop] returns the record set of its query together with a
    field list read off the first row: the names of the properties of that
    row, in the order the row holds them (the indices of its entries when
    the row is an array); when the record set is empty it returns the empty
    row list with an empty field list, and does not throw. *)
Theorem selectTop_fields {driver : Driver} {utils : Utils}
    (table : string) (offset limit : Js.value) (orderBy : option (list OrderItem))
    (filters : Filters) (schema : option string) (selects : list string)
    (w w1 w2 : World) (q : string) (r : DriverResult) (records : list Row) :
  selectTopSql table offset limit orderBy filters schema selects w = (inr q, w1) ->
  driverExecuteQuery (mkQueryArgs q false) false w1 = (inr r, w2) ->
  recordset (data r) = Some records ->
  exists names,
    selectTop table offset limit orderBy filters schema selects w
      = (inr (mkSelectTopResult records names), w2)
    /\ (records = [] -> names = [])
    /\ (forall o rest, records = RowObject o :: rest -> names = map fst o)
    /\ (forall vs rest, records = RowArray vs :: rest ->
        names = map Js.stringOfNat (seq 0 (length vs))).
Proof.
  intros Hsql Hrun Hrs. exists (firstRowKeys records). split.
  - unfold selectTop, bind. rewrite Hsql, Hrun, Hrs. reflexivity.
  - split; [|split].
    + now intros ->.
    + now intros o rest ->.
    + intros vs rest ->. apply mapiFrom_indices.
Qed.

Lemma selectTop_fields_witness :
  exists w2,
    @selectTop Legacy.legacyDriver Demo.demoUtils "t" (Js.Number 0) (Js.Number 10)
      (Some []) FiltersAbsent (Some "dbo") ["*"] Legacy.start
    = (inr (mkSelectTopResult Legacy.pageRows ["id"; "name"; "RowNumber"]), w2).
Proof.
  edestruct (@selectTop_fields Legacy.legacyDriver Demo.demoUtils "t" (Js.Number 0)
               (Js.Number 10) (Some []) FiltersAbsent (Some "dbo") ["*"]
               Legacy.start)
    as (names & Hrun & _ & Hobj & _);
    [reflexivity | reflexivity | reflexivity |].
  eexists. rewrite Hrun. now rewrite (Hobj _ _ eq_refl).
Defined.

(** ** Pagination strategy *)

Section Strategy.

Context {driver : Driver} {utils : Utils} {files : FileSystem}.




Lemma selectTopSql_eq (table : string) (offset limit : Js.value)
    (orderBy : option (list OrderItem)) (filters : Filters)
    (schema : option string) (selects : list string) (w : World) :
  selectTopSql table offset limit orderBy filters schema selects w =
    match getVersion w with
    | (inr v, w') =>
        (inr (if supportOffsetFetch v
              then genSelectNew table offset limit orderBy filters schema selects
              else genSelectOld table offset limit orderBy filters schema selects),
         w')
    | (inl e, w') => (inl e, w')
    end.
Proof.
  unfold selectTopSql, bind, ret.
  now destruct (getVersion w) as [[e|v] w'].
Qed.


End Strategy.




(** ** Applying a change set *)

Section ApplyChanges.

Context {driver : Driver} {utils : Utils}.

Lemma applyChangesStatements_eq (changes : Changes) :
  applyChangesStatements changes =
    ("SET XACT_ABORT ON" :: "BEGIN TRANSACTION"
       :: (builtBlock buildInsertQueries (inserts changes)
             ++ builtBlock buildUpdateQueries (updates changes)
             ++ builtBlock buildDeleteQueries (deletes changes))
       ++ ["COMMIT"])%list.
Proof.
  unfold applyChangesStatements, builtBlock.
  destruct (inserts changes), (updates changes), (deletes changes); cbn;
    repeat rewrite <- app_assoc; cbn; repeat rewrite app_nil_r; reflexivity.
Qed.

Lemma builtBlock_statementBlock {A} (build : list A -> list string)
    (items : option (list A)) :
  build [] = [] -> builtBlock build items = statementBlock build items.
Proof. intros H. destruct items as [[|x l]|]; cbn; auto. Qed.

Lemma reselect_sent (selectQueries : list QueryArgs) :
  forall (results : list Row) (w : World),
    Reachable w ->
    exists k,
      sent (snd (reselect selectQueries results w))
      = (sent w ++ map query (firstn k selectQueries))%list.
Proof.
  induction selectQueries as [|element rest IH]; intros results w H.
  - exists 0%nat. cbn. now rewrite app_nil_r.
  - cbn [reselect]. unfold bind.
    rewrite (driverExecuteQuery_reachable element false H).
    destruct (fst (request (server w) (query element) false)) as [e|d].
    + exists 1%nat. reflexivity.
    + match goal with
      | |- context [reselect rest ?acc ?w1] =>
          destruct (IH acc w1 (or_introl eq_refl)) as [k Hk]
      end.
      exists (S k). rewrite Hk. cbn. now rewrite <- app_assoc.
Qed.

(** [applyChanges] with the driver in reach: the joined batch is the one
    request made before anything else, and only its success lets the
    re-selection run. *)
Lemma applyChanges_reachable (changes : Changes) (w : World) :
  Reachable w ->
  let batch := Js.join ";" (applyChangesStatements changes) in
  let w1 := mkWorld (connectedClient (client w))
              (snd (request (server w) batch false))
              (sent w ++ [batch])%list in
  applyChanges changes w =
    match fst (request (server w) batch false) with
    | inl e => (inl e, w1)
    | inr _ =>
        match updates changes with
        | Some l => reselect (buildSelectQueriesFromUpdates l) [] w1
        | None => (inr [], w1)
        end
    end.
Proof.
  intros H. cbv zeta. unfold applyChanges. rewrite tryCatch_rethrow.
  unfold bind. rewrite (driverExecuteQuery_reachable _ false H). cbn [query].
  destruct (fst (request _ _ _)) as [e|d]; [reflexivity|].
  now destruct (updates changes).
Qed.

End ApplyChanges.

(** C3. With builders that make no statement out of an empty list,
    [applyChanges] joins, for every change set, the statements SET
    XACT_ABORT ON, BEGIN TRANSACTION, the insert statements, the update
    statements, the delete statements and COMMIT, in that order and with
    the block of an empty or missing list left out, and hands the joined
    text to the driver in one request, before any other; what it sends
    afterwards are re-selection queries of the updates only. *)
Theorem applyChanges_single_batch {driver : Driver} {utils : Utils}
    (changes : Changes) (w : World) :
  buildInsertQueries [] = [] ->
  buildUpdateQueries [] = [] ->
  buildDeleteQueries [] = [] ->
  Reachable w ->
  applyChangesStatements changes = transactionBody changes
  /\ exists k,
       sent (snd (applyChanges changes w))
       = (sent w
            ++ Js.join ";" (transactionBody changes)
            :: map query
                 (firstn k (match updates changes with
                            | Some l => buildSelectQueriesFromUpdates l
                            | None => []
                            end)))%list.
Proof.
  intros Hi Hu Hd H.
  assert (E : applyChangesStatements changes = transactionBody changes).
  { rewrite applyChangesStatements_eq. unfold transactionBody.
    rewrite (builtBlock_statementBlock _ (inserts changes) Hi),
            (builtBlock_statementBlock _ (updates changes) Hu),
            (builtBlock_statementBlock _ (deletes changes) Hd).
    cbn. now rewrite <- !app_assoc. }
  split; [exact E|].
  rewrite (applyChanges_reachable changes H). cbv zeta. rewrite E.
  destruct (fst (request (server w) _ false)) as [e|d].
  - exists 0%nat. reflexivity.
  - destruct (updates changes) as [l|].
    + match goal with
      | |- context [reselect ?qs ?acc ?w1] =>
          destruct (reselect_sent qs acc (w := w1) (or_introl eq_refl)) as [k Hk]
      end.
      exists k. rewrite Hk. cbn [sent]. now rewrite <- app_assoc.
    + exists 0%nat. reflexivity.
Qed.

Lemma applyChanges_single_batch_witness :
  @applyChangesStatements Demo.demoUtils (Demo.updateOnly Demo.goodUpdate)
  = ["SET XACT_ABORT ON"; "BEGIN TRANSACTION"; Demo.goodUpdate; "COMMIT"]
  /\ exists k,
       sent (snd (@applyChanges Demo.demoDriver Demo.demoUtils
                    (Demo.updateOnly Demo.goodUpdate) Demo.connected))
       = ([versionQuery]
            ++ Demo.batchOf Demo.goodUpdate
            :: map query (firstn k [mkQueryArgs Demo.reselectQuery false]))%list.
Proof.
  exact (@applyChanges_single_batch Demo.demoDriver Demo.demoUtils
           (Demo.updateOnly Demo.goodUpdate) Demo.connected
           eq_refl eq_refl eq_refl (or_introl eq_refl)).
Defined.

(** ** Failure of the transaction *)

Section ServerFacts.

Variable Store : Type.
Variable runData : Store -> string -> exn + Store.



End ServerFacts.



(** The same server keeps what a change set does when nothing fails, and
    keeps the row inserted before the failing update when the batch does
    not turn XACT_ABORT on; after the rolled back change set, the
    re-selection query reads the old name. *)
Lemma shop_server_changes :
  store (server (snd (@applyChanges Shop.shopDriver Demo.demoUtils Shop.insertOnly
                        Shop.start)))
  = ["bob"; "ada"]
  /\ (let '(outcome, s') :=
        @request Shop.shopDriver (server Shop.start)
          (Js.join ";" ["BEGIN TRANSACTION"; Shop.insertAda; Demo.badUpdate; "COMMIT"])
          false in
      outcome = inl (DriverError "EREQUEST") /\ store s' = ["bob"; "ada"])
  /\ (let w' := snd (@applyChanges Shop.shopDriver Demo.demoUtils
                       Shop.insertThenBadUpdate Shop.start) in
      option_map recordset
        (match fst (@driverExecuteQuery Shop.shopDriver
                      (mkQueryArgs Demo.reselectQuery false) false w') with
         | inr r => Some (data r)
         | inl _ => None
         end)
      = Some (Some [RowObject [("id", Js.Number 1); ("name", Js.Str "bob")]])).
Proof. repeat split. Qed.

(** ** Ordering inside the ranked subquery *)

Lemma genOrderByString_supplied (items : list OrderItem) :
  exists rest, genOrderByString (Some items) = "ORDER BY " ++ rest.
Proof.
  destruct items as [|item items].
  - now exists "(SELECT NULL)".
  - now eexists.
Qed.

Lemma genOrderByString_missing : genOrderByString None = "".
Proof. reflexivity. Qed.

Lemma genSelectOld_window {utils : Utils}
    (table : string) (offset limit : Js.value) (orderBy : option (list OrderItem))
    (filters : Filters) (schema : option string) (selects : list string) :
  exists pre post,
    genSelectOld table offset limit orderBy filters schema selects
    = pre ++ "ROW_NUMBER() OVER (" ++ genOrderByString orderBy
          ++ ") as RowNumber" ++ post.
Proof.
  exists ("
      WITH CTE AS
      (
          SELECT " ++ selectStringOf selects ++ "
                , ").
  eexists. unfold genSelectOld. rewrite !append_assoc. cbn. reflexivity.
Qed.

(** With no order argument at all ([null] or [undefined]) the window is
    left empty. *)
Lemma genSelectOld_missing_order {utils : Utils}
    (table : string) (offset limit : Js.value)
    (filters : Filters) (schema : option string) (selects : list string) :
  exists pre post,
    genSelectOld table offset limit None filters schema selects
    = pre ++ "ROW_NUMBER() OVER () as RowNumber" ++ post.
Proof.
  destruct (genSelectOld_window table offset limit None filters schema selects)
    as (pre & post & E).
  exists pre, post. rewrite E. reflexivity.
Qed.

Lemma readOrderTerm_bare (name : string) :
  name <> "*" -> hasClosingBracket name = false ->
  readOrderTerm (orderTerm (OrderField name)) = Some (name, Ascending).
Proof.
  intros Hstar Hname. unfold readOrderTerm. cbn [orderTerm].
  destruct (wrapIdentifier_plain_roundtrip Hstar Hname) as [_ ->]. reflexivity.
Qed.

(** C7, as stated, fails: the ranking function is emitted without an ORDER
    BY. On a server of the 2008 release, a page asked for with no order
    argument ([null] or [undefined]) is selected with an empty window. *)
Lemma genSelectOld_order_by_counterexample :
  exists pre post,
    fst (@selectTopSql Legacy.legacyDriver Demo.demoUtils "t" (Js.Number 0)
           (Js.Number 10) None FiltersAbsent (Some "dbo") ["*"] Legacy.start)
    = inr (pre ++ "ROW_NUMBER() OVER () as RowNumber" ++ post).
Proof.
  destruct (@genSelectOld_missing_order Demo.demoUtils "t" (Js.Number 0)
              (Js.Number 10) FiltersAbsent (Some "dbo") ["*"]) as (pre & post & E).
  exists pre, post. rewrite <- E. reflexivity.
Qed.

(** C7, amended. For every order list the caller supplies to a legacy-mode
    query, the empty one included, the window of ROW_NUMBER() in the
    generated SQL holds an ORDER BY clause, which for the empty list is
    ORDER BY (SELECT NULL); with no order argument at all the window is
    empty, ROW_NUMBER() OVER (), with no ORDER BY; and a bare entry is
    rendered as its wrapped identifier with no direction keyword, which for
    a name without a closing bracket reads as that column in ascending
    order. *)
Theorem genSelectOld_order_by {utils : Utils}
    (table : string) (offset limit : Js.value) (items : list OrderItem)
    (filters : Filters) (schema : option string) (selects : list string) :
  (exists pre clause post,
     genSelectOld table offset limit (Some items) filters schema selects
     = pre ++ "ROW_NUMBER() OVER (ORDER BY " ++ clause ++ ") as RowNumber" ++ post)
  /\ (items = [] ->
      exists pre post,
        genSelectOld table offset limit (Some items) filters schema selects
        = pre ++ "ROW_NUMBER() OVER (ORDER BY (SELECT NULL)) as RowNumber" ++ post)
  /\ (exists pre post,
        genSelectOld table offset limit None filters schema selects
        = pre ++ "ROW_NUMBER() OVER () as RowNumber" ++ post)
  /\ (forall name,
        orderTerm (OrderField name) = wrapIdentifierText name
        /\ genOrderByString (Some [OrderField name])
           = "ORDER BY " ++ wrapIdentifierText name
        /\ (name <> "*" -> hasClosingBracket name = false ->
            orderTerm (OrderField name) = "[" ++ name ++ "]"
            /\ readOrderTerm (orderTerm (OrderField name)) = Some (name, Ascending))).
Proof.
  destruct (genSelectOld_window table offset limit (Some items) filters schema selects)
    as (pre & post & E).
  split; [|split; [|split]].
  - destruct (genOrderByString_supplied items) as [rest Hrest].
    exists pre, rest, post. rewrite E, Hrest. now rewrite !append_assoc.
  - intros ->. exists pre, post. rewrite E. reflexivity.
  - apply genSelectOld_missing_order.
  - intros name. split; [reflexivity|]. split.
    + reflexivity.
    + intros Hstar Hname. split.
      * exact (proj1 (wrapIdentifier_plain_roundtrip Hstar Hname)).
      * now apply readOrderTerm_bare.
Qed.

Lemma genSelectOld_order_by_witness :
  (exists pre post,
     @genSelectOld Demo.demoUtils "t" (Js.Number 0) (Js.Number 10) (Some [])
        FiltersAbsent (Some "dbo") ["*"]
     = pre ++ "ROW_NUMBER() OVER (ORDER BY (SELECT NULL)) as RowNumber" ++ post)
  /\ (exists pre post,
        @genSelectOld Demo.demoUtils "t" (Js.Number 0) (Js.Number 10) None
           FiltersAbsent (Some "dbo") ["*"]
        = pre ++ "ROW_NUMBER() OVER () as RowNumber" ++ post)
  /\ orderTerm (OrderField "name") = "[name]"
  /\ readOrderTerm (orderTerm (OrderField "name")) = Some ("name", Ascending).
Proof.
  pose proof (@genSelectOld_order_by Demo.demoUtils "t" (Js.Number 0) (Js.Number 10)
                [] FiltersAbsent (Some "dbo") ["*"]) as (_ & Hempty & Hnone & Hbare).
  split; [exact (Hempty eq_refl)|]. split; [exact Hnone|].
  destruct (Hbare "name") as (_ & _ & Hread).
  apply Hread; [discriminate | reflexivity].
Defined.

(** ** Sorting and grouping *)

Section SortBy.

Context {A : Type} (key : A -> Z).

Lemma insertBy_perm (x : A) (l : list A) :
  Permutation (insertBy key x l) (x :: l).
Proof.
  induction l as [|y r IH]; cbn; [reflexivity|].
  destruct (Z.leb (key x) (key y)); [reflexivity|].
  rewrite IH. apply perm_swap.
Qed.

Lemma sortBy_perm (l : list A) : Permutation (sortBy key l) l.
Proof.
  induction l as [|x l IH]; cbn; [reflexivity|].
  rewrite insertBy_perm. now constructor.
Qed.

Lemma insertBy_sorted (x : A) (l : list A) :
  StronglySorted (ascendingBy key) l ->
  StronglySorted (ascendingBy key) (insertBy key x l).
Proof.
  induction 1 as [|y r Hr IH Hy]; cbn.
  - constructor; constructor.
  - destruct (Z.leb_spec (key x) (key y)) as [Hxy|Hyx].
    + constructor; [now constructor|].
      constructor; [exact Hxy|].
      eapply Forall_impl; [|exact Hy]. unfold ascendingBy. intros z Hz. lia.
    + constructor; [exact IH|].
      eapply Permutation_Forall; [symmetry; apply insertBy_perm|].
      constructor; [unfold ascendingBy; lia | exact Hy].
Qed.

Lemma sortBy_sorted (l : list A) : StronglySorted (ascendingBy key) (sortBy key l).
Proof.
  induction l as [|x l IH]; cbn; [constructor|]. now apply insertBy_sorted.
Qed.

End SortBy.

Module JsObjectFacts.

Import JsObject.

Section Facts.

Context {V : Type}.
Implicit Types (o : Js.object V) (k : string) (v : V).

Lemma lookup_None o k : lookup k o = None <-> ~ In k (Js.keys o).
Proof.
  induction o as [|[k' v'] r IH]; cbn; [tauto|].
  destruct (String.eqb_spec k k') as [->|Hne].
  - split; [discriminate | intros H; exfalso; apply H; now left].
  - rewrite IH. split; [intros H [E|Hin]; [now subst | tauto] | tauto].
Qed.

Lemma keys_replace o k v : Js.keys (replace k v o) = Js.keys o.
Proof.
  unfold Js.keys.
  induction o as [|[k' v'] r IH]; cbn; [reflexivity|].
  destruct (String.eqb k k'); cbn; [reflexivity | now rewrite IH].
Qed.

Lemma lookup_replace_same o k v :
  lookup k o <> None -> lookup k (replace k v o) = Some v.
Proof.
  induction o as [|[k' v'] r IH]; cbn; [congruence|].
  destruct (String.eqb k k') eqn:E; cbn; rewrite E; auto.
Qed.

Lemma lookup_replace_other o k k0 v :
  k0 <> k -> lookup k0 (replace k v o) = lookup k0 o.
Proof.
  intros Hne. induction o as [|[k' v'] r IH]; cbn; [reflexivity|].
  destruct (String.eqb_spec k k') as [->|Hk]; cbn.
  - destruct (String.eqb_spec k0 k'); [contradiction | reflexivity].
  - now rewrite IH.
Qed.

Lemma keys_create o k v : Permutation (Js.keys (create k v o)) (k :: Js.keys o).
Proof.
  unfold Js.keys.
  induction o as [|[k' v'] r IH]; cbn; [reflexivity|].
  destruct (comesBefore k k'); cbn; [reflexivity|].
  rewrite IH. apply perm_swap.
Qed.

Lemma lookup_create_same o k v :
  lookup k o = None -> lookup k (create k v o) = Some v.
Proof.
  induction o as [|[k' v'] r IH]; cbn.
  - now rewrite String.eqb_refl.
  - destruct (String.eqb k k') eqn:E; [discriminate|]. intros H.
    destruct (comesBefore k k'); cbn.
    + now rewrite String.eqb_refl.
    + rewrite E. auto.
Qed.

Lemma lookup_create_other o k k0 v :
  k0 <> k -> lookup k0 (create k v o) = lookup k0 o.
Proof.
  intros Hne. induction o as [|[k' v'] r IH]; cbn.
  - destruct (String.eqb_spec k0 k); [contradiction | reflexivity].
  - destruct (comesBefore k k'); cbn.
    + destruct (String.eqb_spec k0 k); [contradiction | reflexivity].
    + now rewrite IH.
Qed.

Lemma lookup_set_same o k v : lookup k (set k v o) = Some v.
Proof.
  unfold set. destruct (lookup k o) eqn:E.
  - apply lookup_replace_same. congruence.
  - now apply lookup_create_same.
Qed.

Lemma lookup_set_other o k k0 v : k0 <> k -> lookup k0 (set k v o) = lookup k0 o.
Proof.
  intros Hne. unfold set. destruct (lookup k o).
  - now apply lookup_replace_other.
  - now apply lookup_create_other.
Qed.

Lemma keys_set_NoDup o k v : NoDup (Js.keys o) -> NoDup (Js.keys (set k v o)).
Proof.
  intros Hnd. unfold set. destruct (lookup k o) eqn:E.
  - now rewrite keys_replace.
  - eapply Permutation_NoDup; [symmetry; apply keys_create|].
    constructor; [now apply lookup_None | exact Hnd].
Qed.

End Facts.

End JsObjectFacts.

Section GroupBy.

Import JsObject JsObjectFacts.

Context {A : Type} (key : A -> string).

Lemma groupStep_grouped (o : Js.object (list A)) (pre : list A) (x : A) :
  GroupedAs key o pre -> GroupedAs key (groupStep key o x) (pre ++ [x])%list.
Proof.
  intros [Hnd Hlk]. unfold groupStep. split.
  - destruct (lookup (key x) o); now apply keys_set_NoDup.
  - intros k. unfold membersOf. rewrite filter_app. cbn [filter].
    fold (membersOf key k pre). specialize (Hlk k) as Hk.
    destruct (String.eqb_spec (key x) k) as [<-|Hne].
    + rewrite Hk.
      destruct (membersOf key (key x) pre) as [|y g] eqn:Eg;
        rewrite lookup_set_same; reflexivity.
    + rewrite app_nil_r.
      destruct (lookup (key x) o);
        rewrite lookup_set_other by congruence; exact Hk.
Qed.

Lemma fold_groupStep_grouped (xs : list A) :
  forall (o : Js.object (list A)) (pre : list A),
    GroupedAs key o pre ->
    GroupedAs key (fold_left (groupStep key) xs o) (pre ++ xs)%list.
Proof.
  induction xs as [|x xs IH]; intros o pre H; cbn.
  - now rewrite app_nil_r.
  - replace (pre ++ x :: xs)%list with ((pre ++ [x]) ++ xs)%list
      by now rewrite <- app_assoc.
    apply IH. now apply groupStep_grouped.
Qed.

(** [_.groupBy] makes one key per key value that occurs and puts under it
    the elements with that key, in their order. *)
Lemma groupBy_grouped (xs : list A) : GroupedAs key (groupBy key xs) xs.
Proof.
  apply (@fold_groupStep_grouped xs [] []).
  split; [constructor | reflexivity].
Qed.

Lemma groupBy_lookup (xs : list A) (k : string) :
  lookup k (groupBy key xs)
  = match membersOf key k xs with
    | [] => None
    | y :: g => Some (y :: g)
    end.
Proof. apply groupBy_grouped. Qed.

Lemma groupBy_keys_NoDup (xs : list A) : NoDup (Js.keys (groupBy key xs)).
Proof. apply groupBy_grouped. Qed.

Lemma groupBy_keys_In (xs : list A) (k : string) :
  In k (Js.keys (groupBy key xs)) <-> exists x, In x xs /\ key x = k.
Proof.
  pose proof (groupBy_lookup xs k) as Hl.
  pose proof (lookup_None (groupBy key xs) k) as Hn.
  unfold membersOf in Hl.
  destruct (filter (fun y => String.eqb (key y) k) xs) as [|y g] eqn:Ef.
  - split.
    + intros Hin. exfalso. now apply Hn.
    + intros (x & Hx & Hk). exfalso.
      assert (Hf : In x (filter (fun y => String.eqb (key y) k) xs)).
      { apply filter_In. split; [exact Hx|]. now apply String.eqb_eq. }
      now rewrite Ef in Hf.
  - split.
    + intros _. assert (Hy : In y (filter (fun y => String.eqb (key y) k) xs))
        by (rewrite Ef; now left).
      apply filter_In in Hy as [Hy Hk]. exists y. split; [exact Hy|].
      now apply String.eqb_eq.
    + intros _. destruct (in_dec string_dec k (Js.keys (groupBy key xs)))
        as [Hin|Hout]; [exact Hin|].
      apply Hn in Hout. congruence.
Qed.

End GroupBy.

Lemma mapOption_total {A B} (f : A -> option B) (xs : list A) :
  (forall x, In x xs -> f x <> None) ->
  exists ys, mapOption f xs = Some ys /\ Forall2 (fun x y => f x = Some y) xs ys.
Proof.
  induction xs as [|x xs IH]; intros H; cbn.
  - exists []. split; [reflexivity | constructor].
  - destruct (f x) as [y|] eqn:Ex; [|exfalso; now apply (H x); [left|]].
    destruct IH as (ys & -> & Hall); [intros z Hz; apply H; now right|].
    exists (y :: ys). split; [reflexivity|]. now constructor.
Qed.

Lemma Forall2_map_fst {A B} (R : A -> B -> Prop) (g : B -> A) (xs : list A) (ys : list B) :
  Forall2 R xs ys -> (forall x y, R x y -> g y = x) -> map g ys = xs.
Proof.
  intros H Hg. induction H as [|x y xs ys Hxy _ IH]; cbn; [reflexivity|].
  now rewrite (Hg _ _ Hxy), IH.
Qed.

Lemma Forall2_In_r {A B} (R : A -> B -> Prop) (xs : list A) (ys : list B) (y : B) :
  Forall2 R xs ys -> In y ys -> exists x, In x xs /\ R x y.
Proof.
  induction 1 as [|x y' xs ys Hxy _ IH]; cbn; [tauto|].
  intros [->|Hin].
  - exists x. split; [now left | exact Hxy].
  - destruct (IH Hin) as (x0 & Hx0 & Hr). exists x0. split; [now right | exact Hr].
Qed.

(** ** Index introspection *)

Lemma indexOfGroup_Some (table schema : string) (recordset : list IndexRow)
    (name : string) (x : TableIndex) :
  indexOfGroup table schema (groupBy index_name recordset) name = Some x ->
  exists first rest,
    rowsOfIndex name recordset = first :: rest
    /\ x = mkTableIndex table schema (index_id first) name
             (is_unique first) (is_primary first)
             (map indexColumnOf (sortBy column_id (first :: rest))).
Proof.
  unfold indexOfGroup, rowsOfIndex. rewrite groupBy_lookup.
  destruct (membersOf index_name name recordset) as [|first rest]; [discriminate|].
  intros H. inversion H. now exists first, rest.
Qed.

Lemma indexOfGroup_defined (table schema : string) (recordset : list IndexRow)
    (name : string) :
  In name (Js.keys (groupBy index_name recordset)) ->
  indexOfGroup table schema (groupBy index_name recordset) name <> None.
Proof.
  intros Hin. unfold indexOfGroup.
  pose proof (proj1 (JsObjectFacts.lookup_None (groupBy index_name recordset) name)) as Hn.
  rewrite groupBy_lookup in *.
  destruct (membersOf index_name name recordset) as [|first rest]; [|discriminate].
  exfalso. now apply Hn.
Qed.

(** C8. [listTableIndexes] turns the rows of the catalog join into exactly
    one record per index name; each record takes its identifier and its
    unique and primary flags from the first row of its index, and lists the
    columns of the index in ascending order of column id, each with ASC or
    DESC as its direction; and the records are returned in ascending order
    of the index identifier. The reshaping never fails. *)
Theorem tableIndexesOf_groups (table schema : string) (recordset : list IndexRow) :
  exists result,
    tableIndexesOf table schema recordset = Some result
    /\ NoDup (map ti_name result)
    /\ (forall name,
          In name (map ti_name result)
          <-> exists r, In r recordset /\ index_name r = name)
    /\ (forall x, In x result ->
          exists first rest,
            rowsOfIndex (ti_name x) recordset = first :: rest
            /\ ti_table x = table /\ ti_schema x = schema
            /\ ti_id x = index_id first
            /\ ti_unique x = is_unique first
            /\ ti_primary x = is_primary first
            /\ ti_columns x
               = map (fun c => mkIndexColumn (column_name c)
                                 (if is_descending c then "DESC" else "ASC"))
                     (sortBy column_id (first :: rest))
            /\ Permutation (sortBy column_id (first :: rest)) (first :: rest)
            /\ StronglySorted (ascendingBy column_id)
                 (sortBy column_id (first :: rest)))
    /\ StronglySorted (ascendingBy ti_id) result.
Proof.
  unfold tableIndexesOf.
  destruct (mapOption_total (indexOfGroup table schema (groupBy index_name recordset))
              (Js.keys (groupBy index_name recordset)))
    as (ys & -> & Hall).
  { intros name. apply indexOfGroup_defined. }
  assert (Hnames : map ti_name ys = Js.keys (groupBy index_name recordset)).
  { apply (Forall2_map_fst _ Hall). intros name y Hy.
    destruct (indexOfGroup_Some _ _ _ _ Hy) as (first & rest & _ & ->). reflexivity. }
  assert (Hperm : Permutation (map ti_name (sortBy ti_id ys))
                    (Js.keys (groupBy index_name recordset))).
  { rewrite <- Hnames. apply Permutation_map, sortBy_perm. }
  eexists. split; [reflexivity|]. split; [|split; [|split]].
  - eapply Permutation_NoDup; [symmetry; exact Hperm|]. apply groupBy_keys_NoDup.
  - intros name. rewrite <- groupBy_keys_In. split; intros Hin.
    + eapply Permutation_in; [exact Hperm | exact Hin].
    + eapply Permutation_in; [symmetry; exact Hperm | exact Hin].
  - intros x Hx.
    assert (Hy : In x ys) by (eapply Permutation_in; [apply sortBy_perm | exact Hx]).
    destruct (Forall2_In_r x Hall Hy) as (name & _ & Hsome).
    destruct (indexOfGroup_Some _ _ _ _ Hsome) as (first & rest & Hrows & ->).
    exists first, rest.
    cbn [ti_table ti_schema ti_id ti_name ti_unique ti_primary ti_columns].
    split; [exact Hrows|].
    repeat (split; [reflexivity|]).
    split; [apply sortBy_perm | apply sortBy_sorted].
  - apply sortBy_sorted.
Qed.

(** The reshaping on a table with a primary key and a composite index whose
    second column comes first in the record set. *)
Example tableIndexesOf_catalog :
  tableIndexesOf "t" "dbo" Demo.catalog
  = Some [ mkTableIndex "t" "dbo" 1 "pk_t" true true [mkIndexColumn "id" "ASC"];
           mkTableIndex "t" "dbo" 3 "ix_b" true false
             [mkIndexColumn "zip" "ASC"; mkIndexColumn "city" "DESC"] ].
Proof. reflexivity. Qed.

(* ===================================================================== *)
(** * Further properties *)
(* ===================================================================== *)

(** ** Literals *)

Lemma scanQuotedBody_escaped (s rest : string) :
  startsWith "'"%char rest = false ->
  scanQuotedBody (Js.replaceAll "'"%char "''" s ++ "'" ++ rest) = Some (s, rest).
Proof.
  intros Hrest. induction s as [|a s IH]; cbn in *.
  - destruct rest as [|b rest]; [reflexivity|].
    cbn in Hrest. now rewrite Hrest.
  - destruct (Ascii.eqb_spec a "'"%char) as [->|Hne]; cbn.
    + now rewrite IH.
    + destruct (Ascii.eqb_spec a "'"%char) as [E|_]; [contradiction|].
      now rewrite IH.
Qed.

(** X1. A value wrapped by [wrapValue] reads back as a character literal
    with exactly that value, whatever quotes it holds, and the text that
    follows the literal is left untouched. *)
Theorem wrapValue_reads_back (value rest : string) :
  startsWith "'"%char rest = false ->
  scanQuoted (wrapValue value ++ rest) = Some (value, rest).
Proof.
  intros Hrest. unfold wrapValue. rewrite !append_assoc. cbn.
  now apply scanQuotedBody_escaped.
Qed.

Lemma wrapValue_reads_back_witness :
  scanQuoted (wrapValue "O'Brien's" ++ " AND TABLE_SCHEMA = 'dbo'")
  = Some ("O'Brien's", " AND TABLE_SCHEMA = 'dbo'").
Proof.
  exact (@wrapValue_reads_back "O'Brien's" " AND TABLE_SCHEMA = 'dbo'" eq_refl).
Defined.

(** ** Qualified names *)

Lemma scanBracketBody_plain_rest (s rest : string) :
  hasClosingBracket s = false -> startsWith "]"%char rest = false ->
  scanBracketBody (s ++ "]" ++ rest) = Some (s, rest).
Proof.
  intros Hs Hrest. induction s as [|a s IH]; cbn in *.
  - destruct rest as [|b rest]; [reflexivity|].
    cbn in Hrest. now rewrite Hrest.
  - apply orb_false_iff in Hs as [Ha Hs].
    rewrite Ha, (IH Hs). reflexivity.
Qed.

Lemma plainName_spec (s : string) :
  plainName s = true -> s <> "*" /\ hasClosingBracket s = false.
Proof.
  unfold plainName. intros H. apply andb_true_iff in H as [H1 H2].
  apply negb_true_iff in H1, H2. split; [|exact H2].
  now apply String.eqb_neq.
Qed.

Lemma scanBracketed_plain_rest (name rest : string) :
  plainName name = true -> startsWith "]"%char rest = false ->
  scanBracketed (wrapIdentifierText name ++ rest) = Some (name, rest).
Proof.
  intros Hn Hrest. destruct (plainName_spec _ Hn) as [Hstar Hb].
  rewrite (proj1 (wrapIdentifier_plain_roundtrip Hstar Hb)).
  rewrite !append_assoc. cbn. now apply scanBracketBody_plain_rest.
Qed.

Lemma readQualified_plain (schema name rest : string) :
  plainName schema = true -> plainName name = true ->
  startsWith "]"%char rest = false ->
  readQualified (wrapIdentifierText schema ++ "." ++ wrapIdentifierText name ++ rest)
  = Some ((schema, name), rest).
Proof.
  intros Hs Hn Hrest. unfold readQualified.
  rewrite (scanBracketed_plain_rest _ _ Hs) by reflexivity. cbn.
  now rewrite (scanBracketed_plain_rest _ _ Hn Hrest).
Qed.

(** X2. For plain schema and table names, the statement built by
    [duplicateTableSql] reads back as a SELECT ... INTO whose target is the
    new table and whose source is the original one, both in the given
    schema. *)
Theorem duplicateTableSql_reads_back (tableName duplicateTableName schema : string) :
  plainName tableName = true ->
  plainName duplicateTableName = true ->
  plainName schema = true ->
  readSelectInto (duplicateTableSql tableName duplicateTableName schema)
  = Some ((schema, duplicateTableName), (schema, tableName)).
Proof.
  intros Ht Hd Hs. unfold readSelectInto, duplicateTableSql.
  rewrite stripPrefix_append.
  rewrite (readQualified_plain _ _ _ Hs Hd) by reflexivity.
  rewrite stripPrefix_append.
  pose proof (readQualified_plain schema tableName "" Hs Ht eq_refl) as E.
  rewrite !append_empty_r in E. now rewrite E.
Qed.

Lemma duplicateTableSql_reads_back_witness :
  readSelectInto (duplicateTableSql "orders" "orders_copy" "dbo")
  = Some (("dbo", "orders_copy"), ("dbo", "orders")).
Proof.
  exact (@duplicateTableSql_reads_back "orders" "orders_copy" "dbo"
           eq_refl eq_refl eq_refl).
Defined.

(** ** The ORDER BY clause read back *)

Lemma readOrderTerms_last (item : OrderItem) (fuel : nat) :
  readableItem item = true ->
  readOrderTerms (S fuel) (orderTerm item) = Some [itemOrder item].
Proof.
  intros H. destruct item as [name|field dir]; cbn [readableItem] in H.
  - cbn [readOrderTerms orderTerm itemOrder].
    pose proof (scanBracketed_plain_rest name "" H eq_refl) as E.
    rewrite append_empty_r in E. rewrite E. reflexivity.
  - apply andb_true_iff in H as [Hf Hd].
    cbn [readOrderTerms orderTerm itemOrder].
    rewrite (scanBracketed_plain_rest field _ Hf) by reflexivity.
    apply orb_true_iff in Hd as [Hd|Hd]; apply String.eqb_eq in Hd;
      rewrite Hd; reflexivity.
Qed.

Lemma readOrderTerms_more (item : OrderItem) (more : string) (fuel : nat) :
  readableItem item = true ->
  readOrderTerms (S fuel) (orderTerm item ++ "," ++ more)
  = match readOrderTerms fuel more with
    | Some terms => Some (itemOrder item :: terms)
    | None => None
    end.
Proof.
  intros H. destruct item as [name|field dir]; cbn [readableItem] in H.
  - cbn [readOrderTerms orderTerm itemOrder].
    rewrite (scanBracketed_plain_rest name _ H) by reflexivity. reflexivity.
  - apply andb_true_iff in H as [Hf Hd].
    cbn [readOrderTerms orderTerm itemOrder]. rewrite !append_assoc.
    rewrite (scanBracketed_plain_rest field _ Hf) by reflexivity.
    apply orb_true_iff in Hd as [Hd|Hd]; apply String.eqb_eq in Hd;
      rewrite Hd; reflexivity.
Qed.

Lemma readOrderTerms_join (items : list OrderItem) :
  items <> [] -> forallb readableItem items = true ->
  forall fuel, (length items <= fuel)%nat ->
    readOrderTerms fuel (Js.join "," (map orderTerm items))
    = Some (map itemOrder items).
Proof.
  induction items as [|item items IH]; [congruence|].
  intros _ Hall fuel Hfuel. cbn in Hall. apply andb_true_iff in Hall as [Hitem Hall].
  destruct fuel as [|fuel]; [cbn in Hfuel; lia|].
  destruct items as [|next items].
  - cbn [map Js.join String.concat]. now apply readOrderTerms_last.
  - change (Js.join "," (map orderTerm (item :: next :: items)))
      with (orderTerm item ++ "," ++ Js.join "," (map orderTerm (next :: items))).
    rewrite (readOrderTerms_more _ _ _ Hitem).
    rewrite IH; [reflexivity | discriminate | exact Hall | cbn in *; lia].
Qed.

Lemma orderTerm_length (item : OrderItem) : (1 <= String.length (orderTerm item))%nat.
Proof.
  destruct item as [name|field dir]; cbn [orderTerm].
  - destruct (wrapIdentifierText_cases name) as [->| ->]; cbn; lia.
  - rewrite length_append.
    destruct (wrapIdentifierText_cases field) as [->| ->]; cbn; lia.
Qed.

Lemma join_length (items : list OrderItem) :
  (length items <= String.length (Js.join "," (map orderTerm items)))%nat.
Proof.
  induction items as [|item items IH]; [cbn; lia|].
  destruct items as [|next items].
  - cbn [map Js.join String.concat length]. apply orderTerm_length.
  - change (Js.join "," (map orderTerm (item :: next :: items)))
      with (orderTerm item ++ "," ++ Js.join "," (map orderTerm (next :: items))).
    rewrite !length_append. pose proof (orderTerm_length item). cbn in *. lia.
Qed.

(** X3. For a non-empty order list of plain names, with directions that
    are ASC or DESC in any letter case, the clause made by
    [genOrderByString] reads back as exactly the requested orderings, in
    the requested order. *)
Theorem genOrderByString_reads_back (items : list OrderItem) :
  items <> [] -> forallb readableItem items = true ->
  readOrderBy (genOrderByString (Some items)) = Some (map itemOrder items).
Proof.
  intros Hne Hall. destruct items as [|item items]; [congruence|].
  cbn [genOrderByString]. unfold readOrderBy. rewrite stripPrefix_append.
  apply readOrderTerms_join; [exact Hne | exact Hall | apply join_length].
Qed.

Lemma genOrderByString_reads_back_witness :
  readOrderBy (genOrderByString
                 (Some [OrderField "name"; OrderObject "created at" "desc";
                        OrderObject "id" "Asc"]))
  = Some [("name", Ascending); ("created at", Descending); ("id", Ascending)].
Proof.
  refine (@genOrderByString_reads_back
            [OrderField "name"; OrderObject "created at" "desc"; OrderObject "id" "Asc"]
            _ eq_refl).
  discriminate.
Defined.

(** ** Decimal numerals *)

Lemma digits_of_uint (d : Decimal.uint) (acc : nat) :
  fold_left (fun z a => 10 * z + Js.digitValue a)
    (list_ascii_of_string (NilEmpty.string_of_uint d)) (Z.of_nat acc)
  = Z.of_nat (Nat.of_uint_acc d acc).
Proof.
  revert acc. induction d as [|d IH|d IH|d IH|d IH|d IH|d IH|d IH|d IH|d IH|d IH];
    intros acc; cbn [NilEmpty.string_of_uint list_ascii_of_string fold_left Nat.of_uint_acc];
    [reflexivity| | | | | | | | | |];
    rewrite <- IH; f_equal; rewrite Nat.tail_mul_spec;
    unfold Js.digitValue;
    match goal with
    | |- context [(nat_of_ascii ?c - 48)%nat] =>
        let v := eval vm_compute in (nat_of_ascii c - 48)%nat in
        change (nat_of_ascii c - 48)%nat with v
    end; lia.
Qed.

Lemma digitsToZ_of_uint (d : Decimal.uint) :
  Js.digitsToZ (NilZero.string_of_uint d) = Z.of_nat (Nat.of_uint d).
Proof.
  unfold Js.digitsToZ, Nat.of_uint. destruct d; try apply (digits_of_uint _ 0).
  reflexivity.
Qed.

(** The text of a natural number parses back to that number. *)
Lemma digitsToZ_stringOfNat (n : nat) : Js.digitsToZ (Js.stringOfNat n) = Z.of_nat n.
Proof.
  unfold Js.stringOfNat. rewrite digitsToZ_of_uint.
  now rewrite DecimalNat.Unsigned.of_to.
Qed.

Lemma stringOfNat_injective (n m : nat) : Js.stringOfNat n = Js.stringOfNat m -> n = m.
Proof.
  intros H. apply (f_equal Js.digitsToZ) in H.
  rewrite !digitsToZ_stringOfNat in H. lia.
Qed.

Lemma allDigits_of_uint (d : Decimal.uint) :
  forallb Js.isDigit (list_ascii_of_string (NilEmpty.string_of_uint d)) = true.
Proof. induction d; cbn; auto. Qed.

Lemma takeDigits_of_uint (d : Decimal.uint) (rest : string) :
  startsWithDigit rest = false ->
  Js.takeDigits (NilEmpty.string_of_uint d ++ rest) = NilEmpty.string_of_uint d.
Proof.
  intros Hrest. induction d; cbn; try now rewrite IHd.
  destruct rest as [|a rest]; [reflexivity|]. cbn in Hrest |- *. now rewrite Hrest.
Qed.

Lemma takeDigits_stringOfNat (n : nat) (rest : string) :
  startsWithDigit rest = false ->
  Js.takeDigits (Js.stringOfNat n ++ rest) = Js.stringOfNat n.
Proof.
  intros Hrest. unfold Js.stringOfNat, NilZero.string_of_uint.
  destruct (Nat.to_uint n) eqn:E; try (rewrite <- E; now apply takeDigits_of_uint).
  cbn. destruct rest as [|a rest]; [reflexivity|]. cbn in Hrest |- *. now rewrite Hrest.
Qed.

Lemma stringOfNat_nonempty (n : nat) : Js.stringOfNat n <> "".
Proof.
  unfold Js.stringOfNat, NilZero.string_of_uint.
  destruct (Nat.to_uint n); cbn; discriminate.
Qed.

(** ** The release year of a banner *)

Lemma yearRegexExec_skip (pre s : string) :
  lacksChar "S"%char pre = true -> yearRegexExec (pre ++ s) = yearRegexExec s.
Proof.
  induction pre as [|a pre IH]; cbn [lacksChar append]; [reflexivity|].
  intros H. apply andb_true_iff in H as [Ha Hpre].
  cbn [yearRegexExec]. unfold matchYearHere at 1. cbn [Js.stripPrefix].
  destruct (Ascii.eqb_spec "S"%char a) as [<-|_]; [discriminate|].
  now apply IH.
Qed.

Lemma toDouble_exact (n : Z) : n < 2 ^ 53 -> toDouble n = Finite n.
Proof.
  intros H. unfold toDouble.
  now replace (Z.ltb n (2 ^ 53)) with true by (symmetry; now apply Z.ltb_lt).
Qed.

(** X4. A banner in which [SQL Server <year>] follows a prefix without a
    capital S and is followed by a text that does not start with a digit
    gives as release year the number nearest to that year that a double
    holds (2017 when the year is 0), which is the year itself below [2^53],
    and OFFSET/FETCH support exactly when that release year is at least
    2012. *)
Theorem versionOf_banner (pre rest : string) (year : nat) :
  lacksChar "S"%char pre = true ->
  startsWithDigit rest = false ->
  let banner := Js.Str (pre ++ "SQL Server " ++ Js.stringOfNat year ++ rest) in
  let stated :=
    if Nat.eqb year 0 then Finite 2017 else toDouble (Z.of_nat year) in
  versionOf banner = mkVersion (numberAtLeast 2012 stated) stated banner
  /\ ((0 < year)%nat -> Z.of_nat year < 2 ^ 53 ->
      versionOf banner
      = mkVersion (Z.leb 2012 (Z.of_nat year)) (Finite (Z.of_nat year)) banner).
Proof.
  intros Hpre Hrest banner stated.
  assert (Ey : yearRegexExec (Js.toString banner) = Some (Js.stringOfNat year)).
  { unfold banner. cbn [Js.toString]. rewrite (yearRegexExec_skip _ _ Hpre).
    apply yearRegexExec_here. unfold matchYearHere. rewrite stripPrefix_append.
    rewrite (takeDigits_stringOfNat _ _ Hrest).
    pose proof (stringOfNat_nonempty year).
    destruct (Js.stringOfNat year); [contradiction | reflexivity]. }
  assert (Es : numberOr (toDouble (Z.of_nat year)) (Finite 2017) = stated).
  { unfold stated. destruct year as [|year]; [reflexivity|].
    cbn [Nat.eqb]. unfold toDouble.
    destruct (Z.ltb (Z.of_nat (S year)) (2 ^ 53)) eqn:El.
    - cbn [numberOr].
      now replace (Z.eqb (Z.of_nat (S year)) 0) with false
        by (symmetry; apply Z.eqb_neq; lia).
    - apply Z.ltb_ge in El. cbv zeta.
      set (n := Z.of_nat (S year)) in *.
      set (e := Z.log2 n - 52).
      set (q := Z.shiftr n e).
      set (q' := if (_ || _)%bool then q + 1 else q).
      destruct (Z.leb (2 ^ 1024) (Z.shiftl q' e)) eqn:Eo; [reflexivity|].
      cbn [numberOr].
      assert (He : 0 <= e).
      { unfold e. assert (53 <= Z.log2 n); [|lia].
        change 53 with (Z.log2 (2 ^ 53)). now apply Z.log2_le_mono. }
      assert (Hq : 0 < q).
      { unfold q. rewrite Z.shiftr_div_pow2 by exact He.
        apply Z.div_str_pos. split; [apply Z.pow_pos_nonneg; lia|].
        apply Z.le_trans with (2 ^ Z.log2 n).
        - apply Z.pow_le_mono_r; lia.
        - apply Z.log2_spec. lia. }
      assert (Hq' : 0 < q') by (unfold q'; destruct (_ || _)%bool; lia).
      assert (Hm : 0 < Z.shiftl q' e).
      { rewrite Z.shiftl_mul_pow2 by exact He.
        apply Z.mul_pos_pos; [exact Hq' | apply Z.pow_pos_nonneg; lia]. }
      now replace (Z.eqb (Z.shiftl q' e) 0) with false
        by (symmetry; apply Z.eqb_neq; lia). }
  assert (E : versionOf banner = mkVersion (numberAtLeast 2012 stated) stated banner).
  { unfold versionOf. rewrite Ey, digitsToZ_stringOfNat, Es. reflexivity. }
  split; [exact E|].
  intros Hpos Hsmall. rewrite E. unfold stated.
  replace (Nat.eqb year 0) with false by (symmetry; apply Nat.eqb_neq; lia).
  now rewrite (toDouble_exact Hsmall).
Qed.

Lemma versionOf_banner_witness :
  versionOf (Js.Str "Microsoft SQL Server 2008 R2 (SP3) - 10.50.6000.34 (X64)")
  = mkVersion false (Finite 2008)
      (Js.Str "Microsoft SQL Server 2008 R2 (SP3) - 10.50.6000.34 (X64)").
Proof.
  refine (proj2 (@versionOf_banner "Microsoft " " R2 (SP3) - 10.50.6000.34 (X64)"
                   2008 eq_refl eq_refl) _ _).
  - repeat constructor.
  - reflexivity.
Defined.

(** ** Rows in array mode *)

Lemma map_mapiFrom {A B C} (g : B -> C) (f : A -> nat -> B) (xs : list A) (n : nat) :
  map g (mapiFrom n f xs) = mapiFrom n (fun x i => g (f x i)) xs.
Proof.
  revert n. induction xs as [|x xs IH]; intros n; cbn; [reflexivity|].
  now rewrite IH.
Qed.

Lemma mapiFrom_ignore_index {A B} (g : A -> B) (xs : list A) (n : nat) :
  mapiFrom n (fun x _ => g x) xs = map g xs.
Proof.
  revert n. induction xs as [|x xs IH]; intros n; cbn; [reflexivity|].
  now rewrite IH.
Qed.

Lemma mapiFrom_In {A B} (f : A -> nat -> B) (xs : list A) (n : nat) (y : B) :
  In y (mapiFrom n f xs) -> exists x i, (n <= i)%nat /\ y = f x i.
Proof.
  revert n. induction xs as [|x xs IH]; intros n; cbn; [tauto|].
  intros [<-|Hin].
  - exists x, n. split; [lia | reflexivity].
  - destruct (IH _ Hin) as (x' & i & Hi & ->). exists x', i. split; [lia | reflexivity].
Qed.

Lemma positional_ids_NoDup {A} (xs : list A) (n : nat) :
  NoDup (mapiFrom n (fun _ idx => "c" ++ Js.stringOfNat idx) xs).
Proof.
  revert n. induction xs as [|x xs IH]; intros n; cbn [mapiFrom]; constructor.
  - intros Hin. apply mapiFrom_In in Hin as (_ & i & Hi & E).
    inversion E as [E']. apply stringOfNat_injective in E'. lia.
  - apply IH.
Qed.

Lemma positional_id_not_index (idx : nat) :
  JsObject.arrayIndex ("c" ++ Js.stringOfNat idx) = None.
Proof. reflexivity. Qed.

Lemma create_appends {V} (k : string) (v : V) (o : Js.object V) :
  JsObject.arrayIndex k = None -> JsObject.create k v o = (o ++ [(k, v)])%list.
Proof.
  intros Hk. induction o as [|[k' v'] o IH]; cbn; [reflexivity|].
  unfold JsObject.comesBefore. rewrite Hk. now rewrite IH.
Qed.

Lemma set_appends {V} (k : string) (v : V) (o : Js.object V) :
  JsObject.arrayIndex k = None -> ~ In k (Js.keys o) ->
  JsObject.set k v o = (o ++ [(k, v)])%list.
Proof.
  intros Hk Hout. unfold JsObject.set.
  rewrite (proj2 (JsObjectFacts.lookup_None o k) Hout). now apply create_appends.
Qed.

Lemma zip_fold_appends (r : Row) (props : list string) :
  forall (n : nat) (acc : Js.object Js.value),
    NoDup props ->
    (forall k, In k props -> JsObject.arrayIndex k = None /\ ~ In k (Js.keys acc)) ->
    fold_left (fun o ki => JsObject.set (fst ki) (zipValue r (snd ki)) o)
      (mapiFrom n (fun k idx => (k, idx)) props) acc
    = (acc ++ mapiFrom n (fun k idx => (k, zipValue r idx)) props)%list.
Proof.
  induction props as [|k props IH]; intros n acc Hnd Hk; cbn.
  - now rewrite app_nil_r.
  - inversion Hnd as [|? ? Hout Hnd']; subst.
    destruct (Hk k (or_introl eq_refl)) as [Hidx Hfresh].
    rewrite (@set_appends _ k (zipValue r n) acc Hidx Hfresh).
    rewrite IH; [now rewrite <- app_assoc | exact Hnd'|].
    intros k' Hin. destruct (Hk k' (or_intror Hin)) as [Hidx' Hfresh'].
    split; [exact Hidx'|]. unfold Js.keys. rewrite map_app, in_app_iff. cbn.
    intros [H|[H|[]]]; [now apply Hfresh' | subst; contradiction].
Qed.

(** With distinct keys that are not array indices, [_.zipObject] lists the
    keys in their order, each with the value at its position. *)
Lemma zipObject_ordered (props : list string) (r : Row) :
  NoDup props -> (forall k, In k props -> JsObject.arrayIndex k = None) ->
  zipObject props r = RowObject (mapi (fun k idx => (k, zipValue r idx)) props).
Proof.
  intros Hnd Hidx. unfold zipObject, mapi. f_equal.
  rewrite (@zip_fold_appends r props 0%nat [] Hnd); [reflexivity|].
  intros k Hin. split; [now apply Hidx | tauto].
Qed.

Lemma positional_ids_not_index {A} (xs : list A) (k : string) :
  In k (mapi (fun _ idx => "c" ++ Js.stringOfNat idx) xs) ->
  JsObject.arrayIndex k = None.
Proof.
  intros Hin. apply mapiFrom_In in Hin as (_ & i & _ & ->). reflexivity.
Qed.

(** X5. In array row mode with column metadata, the parsed fields get the
    positional ids c0, c1, ..., which are pairwise distinct whatever the
    column names are, and every parsed row is an object with exactly these
    ids as keys, in field order, holding the values of the driver row by
    position ([undefined] where the driver row is shorter). *)
Theorem parseRowQueryResult_array_rows (data : list Row) (affected : Z)
    (classified : option string) (cs : list Column) :
  let r := parseRowQueryResult data affected classified (ColumnsArray cs) true in
  let ids := mapi (fun (_ : Column) idx => "c" ++ Js.stringOfNat idx) cs in
  map field_id (fields r) = ids
  /\ map field_name (fields r) = map column_name_of cs
  /\ NoDup ids
  /\ rows r
     = map (fun row => RowObject (mapi (fun id idx => (id, zipValue row idx)) ids)) data
  /\ Forall (fun row => rowKeys row = ids) (rows r).
Proof.
  cbv zeta. unfold parseRowQueryResult. cbn [fields rows parseFields].
  assert (Hids : map field_id
                   (mapi (fun c idx => mkField ("c" ++ Js.stringOfNat idx) (column_name_of c)) cs)
                 = mapi (fun (_ : Column) idx => "c" ++ Js.stringOfNat idx) cs).
  { unfold mapi. now rewrite map_mapiFrom. }
  rewrite Hids.
  assert (Hrows : map (zipObject (mapi (fun (_ : Column) idx => "c" ++ Js.stringOfNat idx) cs)) data
                  = map (fun row => RowObject
                           (mapi (fun id idx => (id, zipValue row idx))
                              (mapi (fun (_ : Column) idx => "c" ++ Js.stringOfNat idx) cs)))
                        data).
  { apply map_ext. intros row. apply zipObject_ordered.
    - apply positional_ids_NoDup.
    - apply positional_ids_not_index. }
  split; [reflexivity|]. split.
  { unfold mapi. rewrite map_mapiFrom. cbn [field_name].
    apply mapiFrom_ignore_index. }
  split; [apply positional_ids_NoDup|].
  split; [exact Hrows|].
  rewrite Hrows. apply Forall_forall. intros row Hin.
  apply in_map_iff in Hin as (row0 & <- & _). cbn [rowKeys]. unfold Js.keys, mapi.
  rewrite map_mapiFrom. cbn [fst].
  rewrite mapiFrom_ignore_index. apply map_id.
Qed.

(** ** Round trips to the server *)

Section FurtherFacts.

Context {driver : Driver} {utils : Utils} {dialect : DialectData}.

Lemma driverExecuteQuery_ok (q : QueryArgs) (mode : bool) (w w' : World)
    (r : DriverResult) :
  driverExecuteQuery q mode w = (inr r, w') ->
  connection (client w') = true
  /\ sent w' = (sent w ++ [query q])%list
  /\ version (client w') = version (client w).
Proof.
  unfold driverExecuteQuery, runWithConnection, runQuery, setConnection.
  destruct (connection (client w)) eqn:Ec.
  - destruct (request (server w) (query q) mode) as [[e|d] s']; intros H;
      inversion H; subst; cbn. now rewrite Ec.
  - destruct (poolConnect (dbConfig (client w)) (server w)); [discriminate|]. cbn.
    destruct (request (server w) (query q) mode) as [[e|d] s']; intros H;
      inversion H; subst; cbn. auto.
Qed.

Lemma executeQuery_sent (q : string) (mode : bool) (w : World) :
  Reachable w -> sent (snd (executeQuery q mode w)) = (sent w ++ [q])%list.
Proof.
  intros H. unfold executeQuery, bind, ret.
  rewrite (driverExecuteQuery_reachable _ _ H). cbn [query].
  now destruct (fst (request _ _ _)).
Qed.

Lemma executeQuery_unreachable (q : string) (mode : bool) (w : World) e :
  connection (client w) = false -> poolConnect (dbConfig (client w)) (server w) = Some e ->
  executeQuery q mode w = (inl e, w).
Proof.
  intros Hc Hp. unfold executeQuery, bind.
  now rewrite (driverExecuteQuery_unreachable _ _ _ Hc Hp).
Qed.

Lemma getVersion_unreachable (w : World) e :
  connection (client w) = false -> poolConnect (dbConfig (client w)) (server w) = Some e ->
  getVersion w = (inl e, w).
Proof.
  intros Hc Hp. unfold getVersion, bind.
  now rewrite (executeQuery_unreachable _ _ _ Hc Hp).
Qed.

End FurtherFacts.

(** X6. When the pool cannot be opened, every method that needs the server
    throws the error of the pool, sends no query, and leaves the client and
    the server as they were. [connect], which first stores the
    configuration it builds, throws the error of the pool opened on that
    configuration, having sent nothing and changed nothing but the stored
    configuration. *)
Theorem unreachable_pool_sends_nothing
    {driver : Driver} {utils : Utils} {dialect : DialectData} {files : FileSystem}
    (w : World) (e : exn) :
  connection (client w) = false ->
  poolConnect (dbConfig (client w)) (server w) = Some e ->
  (forall q mode, executeQuery q mode w = (inl e, w))
  /\ (forall config e',
        configDatabase readFile (clientServer (client w)) (clientDatabase (client w))
          = Some config ->
        poolConnect (Some config) (server w) = Some e' ->
        connect w = (inl e', setDbConfig config w)
        /\ sent (setDbConfig config w) = sent w
        /\ server (setDbConfig config w) = server w
        /\ version (client (setDbConfig config w)) = version (client w))
  /\ (forall table offset limit orderBy filters schema selects,
        selectTop table offset limit orderBy filters schema selects w = (inl e, w))
  /\ (forall changes, applyChanges changes w = (inl e, w))
  /\ (forall table schema, getPrimaryKey table schema w = (inl e, w))
  /\ (forall table schema, getTableLength table schema w = (inl e, w))
  /\ (forall table desc schema, setTableDescription table desc schema w = (inl e, w))
  /\ truncateAllTables w = (inl e, w).
Proof.
  intros Hc Hp.
  pose proof (fun q m => driverExecuteQuery_unreachable q m w Hc Hp) as Hd.
  pose proof (getVersion_unreachable w Hc Hp) as Hv.
  split; [|split; [|repeat split; intros]].
  - intros. now apply executeQuery_unreachable.
  - intros config e' Hcfg Hp'. repeat split.
    unfold connect, bind. rewrite Hcfg.
    now rewrite (@getVersion_unreachable _ _ (setDbConfig config w) e' Hc Hp').
  - unfold selectTop, selectTopSql, bind. now rewrite Hv.
  - unfold applyChanges. rewrite tryCatch_rethrow. unfold bind. now rewrite Hd.
  - unfold getPrimaryKey, getPrimaryKeys, bind. now rewrite Hd.
  - unfold getTableLength, bind. now rewrite Hd.
  - unfold setTableDescription, getTableDescription, bind. now rewrite Hd.
  - unfold truncateAllTables, getSchema, bind. now rewrite Hd.
Qed.

Lemma unreachable_pool_sends_nothing_witness :
  exists config,
    configDatabase (@readFile Demo.demoFiles) plainServer (Js.Str "shop") = Some config
    /\ @connect Demo2.offlineDriver Demo.demoUtils Demo.demoFiles Demo2.offline
       = (inl (DriverError "ESOCKET"),
          @setDbConfig Demo2.offlineDriver config Demo2.offline)
    /\ @getTableLength Demo2.offlineDriver Demo.demoUtils "t" (Some "dbo") Demo2.offline
       = (inl (DriverError "ESOCKET"), Demo2.offline).
Proof.
  destruct (@unreachable_pool_sends_nothing Demo2.offlineDriver Demo.demoUtils
              Demo2.demoDialect Demo.demoFiles Demo2.offline (DriverError "ESOCKET")
              eq_refl eq_refl)
    as (_ & Hconnect & _ & _ & _ & Hlength & _).
  eexists. split; [reflexivity|]. split.
  - exact (proj1 (Hconnect _ (DriverError "ESOCKET") eq_refl eq_refl)).
  - apply Hlength.
Defined.

(** ** Every result of a batch *)

Lemma mapiFrom_Forall {A B} (P : B -> Prop) (f : A -> nat -> B) (xs : list A) (n : nat) :
  (forall x i, P (f x i)) -> Forall P (mapiFrom n f xs).
Proof.
  intros H. revert n. induction xs as [|x xs IH]; intros n; cbn; constructor; auto.
Qed.

(** X7. Every result that [executeQuery] returns for a batch carries the
    same affected-row count, the sum over the whole batch, and a row count
    equal to the number of its rows. *)
Theorem executeQuery_affected_total {driver : Driver} {utils : Utils}
    (queryText : string) (mode : bool) (w w' : World) (r : DriverResult) :
  driverExecuteQuery (mkQueryArgs queryText true) mode w = (inr r, w') ->
  exists results,
    executeQuery queryText mode w = (inr results, w')
    /\ Forall (fun p =>
                 affectedRows p = sum (rowsAffectedList (data r))
                 /\ rowCount p = Z.of_nat (length (rows p)))
              results.
Proof.
  intros H. pose proof (driverExecuteQuery_rowsAffected _ _ _ H) as Hsum.
  unfold executeQuery, bind, ret. rewrite H.
  eexists. split; [reflexivity|].
  unfold parseResults, mapi. apply mapiFrom_Forall. intros rs i.
  unfold parseRowQueryResult. cbn [affectedRows rowCount rows].
  split; [exact Hsum|]. destruct mode; [now rewrite length_map | reflexivity].
Qed.

Lemma executeQuery_affected_total_witness :
  exists results,
    @executeQuery Demo.demoDriver Demo.demoUtils (Demo.batchOf Demo.goodUpdate)
      false Demo.opened
    = (inr results,
       @mkWorld Demo.demoDriver (plainClient true None) "x"
         [versionQuery; Demo.batchOf Demo.goodUpdate])
    /\ Forall (fun p => affectedRows p = 1 /\ rowCount p = Z.of_nat (length (rows p)))
         results.
Proof.
  exact (@executeQuery_affected_total Demo.demoDriver Demo.demoUtils
           (Demo.batchOf Demo.goodUpdate) false Demo.opened
           (@mkWorld Demo.demoDriver (plainClient true None) "x"
              [versionQuery; Demo.batchOf Demo.goodUpdate])
           (mkDriverResult (mkDriverData [] None [1] None) 1) eq_refl).
Defined.

(** ** The requests of [selectTop] *)

(** X8. With the server in reach, [selectTop] first sends the version
    query. If that fails it throws the error and sends nothing else;
    otherwise it sends exactly one more text, the paginated query chosen
    from the answer. *)
Theorem selectTop_requests {driver : Driver} {utils : Utils}
    (table : string) (offset limit : Js.value) (orderBy : option (list OrderItem))
    (filters : Filters) (schema : option string) (selects : list string)
    (w : World) :
  Reachable w ->
  (forall e w1, getVersion w = (inl e, w1) ->
     selectTop table offset limit orderBy filters schema selects w = (inl e, w1)
     /\ sent w1 = (sent w ++ [versionQuery])%list)
  /\ (forall v w1, getVersion w = (inr v, w1) ->
        sent (snd (selectTop table offset limit orderBy filters schema selects w))
        = (sent w
             ++ [versionQuery;
                 if supportOffsetFetch v
                 then genSelectNew table offset limit orderBy filters schema selects
                 else genSelectOld table offset limit orderBy filters schema selects])%list).
Proof.
  intros H. pose proof (getVersion_sent H) as Hsent. split.
  - intros e w1 Hv. rewrite Hv in Hsent. split; [|exact Hsent].
    unfold selectTop, bind. now rewrite selectTopSql_eq, Hv.
  - intros v w1 Hv. rewrite Hv in Hsent. cbn [snd] in Hsent.
    assert (Hr : Reachable w1).
    { rewrite getVersion_eq in Hv.
      destruct (driverExecuteQuery _ _ w) as [[e|r] w2] eqn:Ed; [discriminate|].
      inversion Hv; subst. left. exact (proj1 (driverExecuteQuery_ok _ _ _ Ed)). }
    unfold selectTop, bind. rewrite selectTopSql_eq, Hv.
    rewrite (driverExecuteQuery_reachable _ _ Hr). cbn [query].
    destruct (fst (request _ _ _)) as [e|d].
    + cbn. rewrite Hsent. now rewrite <- app_assoc.
    + destruct (recordset (data _)); cbn; rewrite Hsent; now rewrite <- app_assoc.
Qed.

Lemma selectTop_requests_witness :
  sent (snd (@selectTop Demo.demoDriver Demo.demoUtils "t" (Js.Number 0)
               (Js.Number 10) (Some []) FiltersAbsent (Some "dbo") ["*"] Demo.start))
  = [versionQuery;
     @genSelectNew Demo.demoUtils "t" (Js.Number 0) (Js.Number 10) (Some [])
       FiltersAbsent (Some "dbo") ["*"]].
Proof.
  exact (proj2 (@selectTop_requests Demo.demoDriver Demo.demoUtils "t" (Js.Number 0)
                  (Js.Number 10) (Some []) FiltersAbsent (Some "dbo") ["*"]
                  Demo.start (or_intror eq_refl))
           (mkVersion true (Finite 2017) (Js.Str Demo.banner)) Demo.opened eq_refl).
Defined.

(** ** The re-selection after a change set *)

Lemma reselect_ok {driver : Driver} (selectQueries : list QueryArgs) :
  forall (results rows : list Row) (w w' : World),
    Reachable w ->
    reselect selectQueries results w = (inr rows, w') ->
    sent w' = (sent w ++ map query selectQueries)%list
    /\ (length rows <= length results + length selectQueries)%nat
    /\ exists more, rows = (results ++ more)%list.
Proof.
  induction selectQueries as [|element rest IH]; intros results rows w w' H.
  - cbn. intros E. inversion E; subst. rewrite !app_nil_r.
    split; [reflexivity|]. split; [lia|]. exists []. now rewrite app_nil_r.
  - cbn [reselect]. unfold bind.
    rewrite (driverExecuteQuery_reachable element false H).
    destruct (fst (request (server w) (query element) false)) as [e|d];
      [discriminate|].
    intros E. apply IH in E; [|now left]. cbn [sent] in E.
    destruct E as (Hsent & Hlen & more & Hmore).
    split; [rewrite Hsent; cbn; now rewrite <- app_assoc|].
    cbn [data] in *. destruct (item0 d) as [row|].
    + rewrite length_app in Hlen. cbn in *. split; [lia|].
      exists (row :: more). rewrite Hmore. now rewrite <- app_assoc.
    + split; [cbn; lia|]. now exists more.
Qed.

(** X9. When [applyChanges] returns, it has sent the batch and then every
    re-selection query of the updates, in order; it returns at most one row
    per re-selection query, and no row at all when the change set has no
    update list. *)
Theorem applyChanges_success {driver : Driver} {utils : Utils}
    (changes : Changes) (w w' : World) (rows : list Row) :
  Reachable w ->
  applyChanges changes w = (inr rows, w') ->
  let selectQueries :=
    match updates changes with
    | Some l => buildSelectQueriesFromUpdates l
    | None => []
    end in
  sent w' = (sent w ++ Js.join ";" (applyChangesStatements changes)
               :: map query selectQueries)%list
  /\ (length rows <= length selectQueries)%nat
  /\ (updates changes = None -> rows = []).
Proof.
  intros H. rewrite (applyChanges_reachable changes H). cbv zeta.
  destruct (fst (request (server w) _ false)) as [e|d]; [discriminate|].
  destruct (updates changes) as [l|].
  - intros E. apply reselect_ok in E; [|now left]. cbn [sent length] in E.
    destruct E as (Hsent & Hlen & _).
    split; [rewrite Hsent; now rewrite <- app_assoc|]. split; [lia | discriminate].
  - intros E. inversion E; subst. cbn. split; [reflexivity|]. split; [lia | reflexivity].
Qed.

Lemma applyChanges_success_witness :
  sent (snd (@applyChanges Demo.demoDriver Demo.demoUtils
               (Demo.updateOnly Demo.goodUpdate) Demo.connected))
  = [versionQuery; Demo.batchOf Demo.goodUpdate; Demo.reselectQuery]
  /\ (1 <= 1)%nat
  /\ (@updates Demo.demoUtils (Demo.updateOnly Demo.goodUpdate) = None ->
      [Demo.rowOf "x"] = []).
Proof.
  exact (@applyChanges_success Demo.demoDriver Demo.demoUtils
           (Demo.updateOnly Demo.goodUpdate) Demo.connected
           (snd (@applyChanges Demo.demoDriver Demo.demoUtils
                   (Demo.updateOnly Demo.goodUpdate) Demo.connected))
           [Demo.rowOf "x"] (or_introl eq_refl) eq_refl).
Defined.

(** X10. The re-selection runs after the transaction has been committed:
    when the batch succeeds and the first re-selection query fails,
    [applyChanges] throws that error and returns no row, yet the server is
    in the state the committed batch and the failed read left it in, and
    no later re-selection query is sent. *)
Theorem applyChanges_reselect_failure {driver : Driver} {utils : Utils}
    (changes : Changes) (w : World) (l : list TableUpdate)
    (element : QueryArgs) (rest : list QueryArgs)
    (d : DriverData) (e : exn) (s1 s2 : db) :
  Reachable w ->
  request (server w) (Js.join ";" (applyChangesStatements changes)) false = (inr d, s1) ->
  updates changes = Some l ->
  buildSelectQueriesFromUpdates l = element :: rest ->
  request s1 (query element) false = (inl e, s2) ->
  applyChanges changes w
  = (inl e,
     mkWorld (connectedClient (client w)) s2
       (sent w ++ [Js.join ";" (applyChangesStatements changes); query element])%list).
Proof.
  intros H Hbatch Hupd Hsel Hfail.
  rewrite (applyChanges_reachable changes H). cbv zeta.
  rewrite Hbatch, Hupd, Hsel. cbn [fst snd reselect]. unfold bind.
  rewrite driverExecuteQuery_reachable by now left.
  cbn [server sent client version connection]. rewrite Hfail. cbn.
  now rewrite <- app_assoc.
Qed.

Lemma applyChanges_reselect_failure_witness :
  @applyChanges Demo2.demoDriver Demo.demoUtils
     (Demo.updateOnly Demo.goodUpdate) Demo2.start
  = (inl (DriverError "ETIMEOUT"),
     @mkWorld Demo2.demoDriver (plainClient true None) "x"
       [Demo.batchOf Demo.goodUpdate; Demo.reselectQuery]).
Proof.
  exact (@applyChanges_reselect_failure Demo2.demoDriver Demo.demoUtils
           (Demo.updateOnly Demo.goodUpdate) Demo2.start [Demo.goodUpdate]
           (mkQueryArgs Demo.reselectQuery false) []
           (mkDriverData [] None [1] None) (DriverError "ETIMEOUT") "x" "x"
           (or_introl eq_refl) eq_refl eq_refl eq_refl eq_refl).
Defined.

(** ** Primary keys *)

(** X11. Whenever the catalog query is answered, [getPrimaryKey] returns
    without throwing: the column name when the key has exactly one column,
    and [null] when the record set is missing, empty, or holds a composite
    key. *)
Theorem getPrimaryKey_single_column {driver : Driver}
    (table schema : string) (w w' : World) (r : DriverResult) :
  driverExecuteQuery (mkQueryArgs (getPrimaryKeysSql table schema) false) false w
    = (inr r, w') ->
  exists v,
    getPrimaryKey table schema w = (inr v, w')
    /\ (forall row, recordset (data r) = Some [row] ->
          v = rowProperty "COLUMN_NAME" row)
    /\ (recordset (data r) = None \/ recordset (data r) = Some [] -> v = Js.Null)
    /\ (forall records, recordset (data r) = Some records ->
          (2 <= length records)%nat -> v = Js.Null).
Proof.
  intros H. unfold getPrimaryKey, getPrimaryKeys, bind. rewrite H.
  destruct (recordset (data r)) as [[|row [|row' records]]|]; cbn;
    eexists; (split; [reflexivity|]); repeat split;
    try (intros; congruence); try (intros [?|?]; congruence);
    try (intros ? E Hl; inversion E; subst; cbn in Hl; lia).
Qed.

Lemma getPrimaryKey_single_column_witness :
  @getPrimaryKey Demo2.demoDriver "order_lines" "dbo" Demo2.start
  = (inr Js.Null,
     @mkWorld Demo2.demoDriver (plainClient true None) "old"
       [getPrimaryKeysSql "order_lines" "dbo"]).
Proof.
  destruct (@getPrimaryKey_single_column Demo2.demoDriver
              "order_lines" "dbo" Demo2.start
              (@mkWorld Demo2.demoDriver (plainClient true None) "old"
                 [getPrimaryKeysSql "order_lines" "dbo"])
              (mkDriverResult (Demo2.answer Demo2.keyRows) 2) eq_refl)
    as (v & Hrun & _ & _ & Hmany).
  rewrite Hrun. now rewrite (Hmany Demo2.keyRows eq_refl (le_n 2)).
Defined.

(** ** Counting rows *)

Lemma find_some_truthy (records : list Row) (row : Row) :
  find (fun row => truthy (rowProperty "total" row)) records = Some row ->
  In row records /\ truthy (rowProperty "total" row) = true.
Proof. apply find_some. Qed.

(** X12. Whenever the count query is answered with a record set,
    [getTableLength] returns either a truthy [total] found in one of the
    rows or the number 0, never [undefined] or [null]; for the single row
    a count query yields, it returns the count, zero included. *)
Theorem getTableLength_total {driver : Driver} {utils : Utils}
    (table : string) (schema : option string) (w w' : World)
    (r : DriverResult) (records : list Row) :
  driverExecuteQuery
    (mkQueryArgs (genCountQuery table (FiltersList []) schema) false) false w
    = (inr r, w') ->
  recordset (data r) = Some records ->
  exists v,
    getTableLength table schema w = (inr v, w')
    /\ (v = Js.Number 0
        \/ (truthy v = true /\ exists row, In row records /\ v = rowProperty "total" row))
    /\ (forall n, records = [RowObject [("total", Js.Number n)]] -> v = Js.Number n).
Proof.
  intros H Hrs. unfold getTableLength, bind. rewrite H, Hrs. cbn.
  eexists. split; [reflexivity|]. split.
  - destruct (find _ records) as [row|] eqn:Ef; [|now left].
    right. apply find_some_truthy in Ef as [Hin Ht]. split; [exact Ht|].
    now exists row.
  - intros n ->. cbn. destruct (Z.eqb_spec n 0) as [->|_]; reflexivity.
Qed.

Lemma getTableLength_total_witness :
  @getTableLength Demo2.demoDriver Demo.demoUtils "t" (Some "dbo") Demo2.start
  = (inr (Js.Number 0),
     @mkWorld Demo2.demoDriver (plainClient true None) "old"
       [@genCountQuery Demo.demoUtils "t" (FiltersList []) (Some "dbo")]).
Proof.
  destruct (@getTableLength_total Demo2.demoDriver Demo.demoUtils "t" (Some "dbo")
              Demo2.start
              (@mkWorld Demo2.demoDriver (plainClient true None) "old"
                 [@genCountQuery Demo.demoUtils "t" (FiltersList []) (Some "dbo")])
              (mkDriverResult (Demo2.answer [RowObject [("total", Js.Number 0)]]) 1)
              [RowObject [("total", Js.Number 0)]] eq_refl eq_refl)
    as (v & Hrun & _ & Hone).
  rewrite Hrun. now rewrite (Hone 0 eq_refl).
Defined.

(** ** Table descriptions *)

(** X13. [getTableDescription] looks for the record set on the object that
    wraps the driver's answer, where there is none, so it returns [null]
    whatever the server answers; [setTableDescription] therefore always
    calls [sp_addextendedproperty], even when a description is stored, and
    never [sp_updateextendedproperty]. *)
Theorem setTableDescription_always_adds
    {driver : Driver} {utils : Utils} {dialect : DialectData}
    (table desc schema : string) (w w1 : World) (r : DriverResult) :
  driverExecuteQuery (mkQueryArgs (getTableDescriptionSql table (Some schema)) false)
    false w = (inr r, w1) ->
  getTableDescription table (Some schema) w = (inr Js.Null, w1)
  /\ sent (snd (setTableDescription table desc schema w))
     = (sent w ++ [getTableDescriptionSql table (Some schema);
                   setTableDescriptionSql "sp_addextendedproperty" table desc schema])%list.
Proof.
  intros H. destruct (driverExecuteQuery_ok _ _ _ H) as (Hconn & Hsent & _).
  assert (Hdesc : getTableDescription table (Some schema) w = (inr Js.Null, w1)).
  { unfold getTableDescription, bind. now rewrite H. }
  split; [exact Hdesc|].
  unfold setTableDescription. unfold bind at 1. rewrite Hdesc. cbn [truthy].
  unfold bind at 1.
  pose proof (@executeQuery_sent _ _
                (setTableDescriptionSql "sp_addextendedproperty" table desc schema)
                false w1 (or_introl Hconn)) as Hq.
  destruct (executeQuery _ false w1) as [[e|res] w2]; cbn in *;
    rewrite Hq, Hsent; cbn; now rewrite <- app_assoc.
Qed.

Lemma setTableDescription_always_adds_witness :
  sent (snd (@setTableDescription Demo2.demoDriver Demo.demoUtils Demo2.demoDialect
               "t" "new text" "dbo" Demo2.start))
  = [@getTableDescriptionSql Demo.demoUtils "t" (Some "dbo");
     @setTableDescriptionSql Demo.demoUtils Demo2.demoDialect
       "sp_addextendedproperty" "t" "new text" "dbo"].
Proof.
  exact (proj2 (@setTableDescription_always_adds Demo2.demoDriver Demo.demoUtils
                  Demo2.demoDialect "t" "new text" "dbo" Demo2.start
                  (@mkWorld Demo2.demoDriver (plainClient true None) "old"
                     [@getTableDescriptionSql Demo.demoUtils "t" (Some "dbo")])
                  (mkDriverResult
                     (Demo2.answer [RowObject [("MS_Description", Js.Str "old text")]]) 1)
                  eq_refl)).
Defined.

(** ** Truncating every table *)

(** X14. [getSchema] reads the property [schema] of the first record set,
    not of its first row, so whenever the server answers with a record set
    it returns [undefined]; the catalog query that [truncateAllTables]
    sends next therefore always asks for the tables of a schema named
    undefined. *)
Theorem truncateAllTables_schema {driver : Driver}
    (w w1 : World) (r : DriverResult) :
  driverExecuteQuery (mkQueryArgs getSchemaSql false) false w = (inr r, w1) ->
  recordsets (data r) <> [] ->
  getSchema w = (inr Js.Undefined, w1)
  /\ (exists tail,
        sent (snd (truncateAllTables w))
        = (sent w ++ getSchemaSql :: truncateListSql Js.Undefined :: tail)%list)
  /\ exists pre post,
       truncateListSql Js.Undefined
       = pre ++ "WHERE table_schema = 'undefined'" ++ post.
Proof.
  intros H Hrs. destruct (driverExecuteQuery_ok _ _ _ H) as (Hconn & Hsent & _).
  assert (Hschema : getSchema w = (inr Js.Undefined, w1)).
  { unfold getSchema, bind. rewrite H.
    destruct (recordsets (data r)); [contradiction | reflexivity]. }
  split; [exact Hschema|]. split.
  - unfold truncateAllTables. unfold bind at 1. rewrite Hschema.
    unfold bind at 1.
    rewrite (driverExecuteQuery_reachable _ false (or_introl Hconn)). cbn [query].
    destruct (fst (request (server w1) _ false)) as [e|d].
    + exists []. cbn. rewrite Hsent. now rewrite <- app_assoc.
    + cbn [data]. destruct (recordset d) as [records|].
      * unfold bind.
        rewrite driverExecuteQuery_reachable by now left.
        cbn [query sent].
        eexists [_]. destruct (fst (request _ _ false)); cbn;
          rewrite Hsent; now rewrite <- !app_assoc.
      * exists []. cbn. rewrite Hsent. now rewrite <- app_assoc.
  - eexists "
      SELECT table_name
      FROM INFORMATION_SCHEMA.TABLES
      ". eexists. reflexivity.
Qed.

Lemma truncateAllTables_schema_witness :
  @getSchema Demo2.demoDriver Demo2.start
  = (inr Js.Undefined,
     @mkWorld Demo2.demoDriver (plainClient true None) "old" [getSchemaSql]).
Proof.
  exact (proj1 (@truncateAllTables_schema Demo2.demoDriver Demo2.start
                  (@mkWorld Demo2.demoDriver (plainClient true None) "old" [getSchemaSql])
                  (mkDriverResult
                     (Demo2.answer [RowObject [("schema", Js.Str "sales")]]) 1)
                  eq_refl ltac:(discriminate))).
Defined.

(** ** Routine introspection *)

Lemma mapOption_map {A B} (f : A -> option B) (g : A -> B) (xs : list A) :
  (forall x, In x xs -> f x = Some (g x)) -> mapOption f xs = Some (map g xs).
Proof.
  induction xs as [|x xs IH]; intros H; cbn; [reflexivity|].
  rewrite (H x (or_introl eq_refl)), IH; [reflexivity|].
  intros y Hy. apply H. now right.
Qed.

Lemma mapOption_fails {A B} (f : A -> option B) (xs : list A) (x : A) :
  In x xs -> f x = None -> mapOption f xs = None.
Proof.
  induction xs as [|y xs IH]; cbn; [tauto|].
  intros [->|Hin] Hx.
  - now rewrite Hx.
  - rewrite (IH Hin Hx). now destruct (f y).
Qed.

Lemma routineOf_own (params : list ParamRow) (row : RoutineRow) :
  ~ In (routine_id row) objectPrototypeKeys ->
  routineOf (groupBy specific_name params) row
  = Some (routineWith row (membersOf specific_name (routine_id row) params)).
Proof.
  intros Hout. unfold routineOf, getProperty. rewrite groupBy_lookup.
  destruct (membersOf specific_name (routine_id row) params) as [|p ps];
    [|reflexivity].
  destruct (existsb (String.eqb (routine_id row)) objectPrototypeKeys) eqn:E;
    [|reflexivity].
  exfalso. apply Hout. apply existsb_exists in E as (k & Hk & Heq).
  apply String.eqb_eq in Heq. now subst.
Qed.

(** X15. [listRoutines] returns one record per routine row, in the order of
    the rows, and gives each routine exactly the parameter rows that carry
    its specific name, in their order (none when it has none), provided no
    routine is named like a member of the object prototype. A routine with
    such a name and no parameter makes the method throw. *)
Theorem routinesOf_params (routines : list RoutineRow) (params : list ParamRow) :
  (Forall (fun row => ~ In (routine_id row) objectPrototypeKeys) routines ->
   routinesOf routines params
   = Some (map (fun row =>
                  routineWith row (membersOf specific_name (routine_id row) params))
               routines))
  /\ (forall row,
        In row routines ->
        In (routine_id row) objectPrototypeKeys ->
        membersOf specific_name (routine_id row) params = [] ->
        routinesOf routines params = None).
Proof.
  split.
  - intros Hall. unfold routinesOf. apply mapOption_map.
    intros row Hin. apply routineOf_own.
    exact (proj1 (Forall_forall _ _) Hall row Hin).
  - intros row Hin Hproto Hnone. unfold routinesOf.
    apply (mapOption_fails _ _ _ Hin).
    unfold routineOf, getProperty. rewrite groupBy_lookup, Hnone.
    replace (existsb (String.eqb (routine_id row)) objectPrototypeKeys) with true;
      [reflexivity|].
    symmetry. apply existsb_exists. exists (routine_id row).
    split; [exact Hproto | apply String.eqb_refl].
Qed.

Lemma routinesOf_params_witness :
  routinesOf
    [ mkRoutineRow "usp_add" (Js.Str "dbo") (Js.Str "usp_add") (Some "PROCEDURE") Js.Null;
      mkRoutineRow "fn_now" (Js.Str "dbo") (Js.Str "fn_now") None (Js.Str "datetime") ]
    [ mkParamRow "usp_add" (Js.Str "@a") Js.Null (Js.Str "int");
      mkParamRow "other" (Js.Str "@x") (Js.Number 50) (Js.Str "varchar");
      mkParamRow "usp_add" (Js.Str "@b") (Js.Number 0) (Js.Str "int") ]
  = Some
      [ mkRoutine (Js.Str "dbo") (Js.Str "usp_add") "procedure" Js.Null "usp_add"
          [ mkRoutineParam (Js.Str "@a") (Js.Str "int") Js.Undefined;
            mkRoutineParam (Js.Str "@b") (Js.Str "int") Js.Undefined ];
        mkRoutine (Js.Str "dbo") (Js.Str "fn_now") "function" (Js.Str "datetime")
          "fn_now" [] ]
  /\ routinesOf
       [ mkRoutineRow "toString" (Js.Str "dbo") (Js.Str "toString") (Some "FUNCTION")
           (Js.Str "int") ]
       []
     = None.
Proof.
  split.
  - refine (proj1 (routinesOf_params _ _) _).
    repeat constructor; cbn; intuition discriminate.
  - apply (proj2 (routinesOf_params _ _)
             (mkRoutineRow "toString" (Js.Str "dbo") (Js.Str "toString")
                (Some "FUNCTION") (Js.Str "int")));
      [left; reflexivity | cbn; tauto | reflexivity].
Defined.

(** ** No catalog row is lost *)

Lemma list_sum_perm (l l' : list nat) : Permutation l l' -> list_sum l = list_sum l'.
Proof. induction 1; unfold list_sum in *; cbn in *; lia. Qed.

Lemma list_sum_cons (a : nat) (l : list nat) : list_sum (a :: l) = (a + list_sum l)%nat.
Proof. reflexivity. Qed.

Lemma indicator_sum_absent (a : string) (ks : list string) :
  ~ In a ks -> list_sum (map (fun k => if String.eqb a k then 1 else 0)%nat ks) = 0%nat.
Proof.
  induction ks as [|k ks IH]; cbn; [reflexivity|]. intros H.
  destruct (String.eqb_spec a k) as [->|_]; [exfalso; apply H; now left|].
  apply IH. tauto.
Qed.

Lemma indicator_sum_present (a : string) (ks : list string) :
  NoDup ks -> In a ks ->
  list_sum (map (fun k => if String.eqb a k then 1 else 0)%nat ks) = 1%nat.
Proof.
  induction 1 as [|k ks Hout Hnd IH]; cbn; [tauto|]. intros [->|Hin].
  - rewrite String.eqb_refl. now rewrite indicator_sum_absent.
  - destruct (String.eqb_spec a k) as [->|_]; [contradiction|]. now apply IH.
Qed.

(** Distinct keys that cover every element split a list into groups whose
    sizes add up to its length. *)
Lemma members_partition {A} (key : A -> string) (ks : list string) (xs : list A) :
  NoDup ks -> (forall x, In x xs -> In (key x) ks) ->
  list_sum (map (fun k => length (membersOf key k xs)) ks) = length xs.
Proof.
  intros Hnd. induction xs as [|x xs IH]; intros Hcover.
  - cbn. induction ks as [|k ks IHk]; cbn; [reflexivity|].
    inversion Hnd; subst. now apply IHk.
  - assert (E : map (fun k => length (membersOf key k (x :: xs))) ks
                = map (fun k => ((if String.eqb (key x) k then 1 else 0)
                                 + length (membersOf key k xs))%nat) ks).
    { apply map_ext. intros k. unfold membersOf. cbn [filter].
      now destruct (String.eqb (key x) k). }
    rewrite E.
    assert (S : forall (f g : string -> nat) l,
               list_sum (map (fun k => (f k + g k)%nat) l)
               = (list_sum (map f l) + list_sum (map g l))%nat).
    { intros f g l. induction l as [|k l IHl]; [reflexivity|].
      unfold list_sum in *. cbn in *. lia. }
    rewrite S, IH by (intros y Hy; apply Hcover; now right).
    rewrite indicator_sum_present; [reflexivity | exact Hnd|].
    apply Hcover. now left.
Qed.

Lemma index_columns_sum (table schema : string) (recordset : list IndexRow)
    (ks : list string) (ys : list TableIndex) :
  Forall2 (fun k y => indexOfGroup table schema (groupBy index_name recordset) k = Some y)
    ks ys ->
  list_sum (map (fun y => length (ti_columns y)) ys)
  = list_sum (map (fun k => length (membersOf index_name k recordset)) ks).
Proof.
  induction 1 as [|k y ks ys Hy _ IH]; [reflexivity|].
  cbn [map]. rewrite !list_sum_cons, IH. f_equal.
  destruct (indexOfGroup_Some _ _ _ _ Hy) as (first & rest & Hrows & ->).
  cbn [ti_columns]. rewrite length_map, (Permutation_length (sortBy_perm _ _)).
  unfold rowsOfIndex in Hrows. now rewrite Hrows.
Qed.

(** X16. [listTableIndexes] neither drops nor repeats a row of the catalog
    join: over the records it returns, the column lists together have as
    many entries as the record set has rows; an empty record set gives no
    record. *)
Theorem tableIndexesOf_keeps_rows (table schema : string) (recordset : list IndexRow) :
  exists result,
    tableIndexesOf table schema recordset = Some result
    /\ list_sum (map (fun x => length (ti_columns x)) result) = length recordset
    /\ (recordset = [] -> result = []).
Proof.
  unfold tableIndexesOf.
  destruct (mapOption_total (indexOfGroup table schema (groupBy index_name recordset))
              (Js.keys (groupBy index_name recordset)))
    as (ys & E & Hall).
  { intros name. apply indexOfGroup_defined. }
  rewrite E. eexists. split; [reflexivity|]. split.
  - rewrite (list_sum_perm (Permutation_map _ (sortBy_perm ti_id ys))).
    rewrite (@index_columns_sum table schema recordset _ _ Hall).
    apply members_partition; [apply groupBy_keys_NoDup|].
    intros x Hx. apply groupBy_keys_In. now exists x.
  - intros ->. cbn in E. now inversion E.
Qed.

(** ** Driver configuration *)

(** X17. With TLS switched on, the configuration handed to the driver does
    not depend on the [trustServerCertificate] setting of the connection:
    the certificate is trusted only when all three TLS files are set and
    [sslRejectUnauthorized] is falsy. With an SSH tunnel, the configuration
    does not depend on the host and port of the connection. *)
Theorem configDatabase_ignored_settings (readFileSync : string -> option string)
    (server : ConnectionServer) (database : Js.value) :
  (truthy (sc_ssl (server_config server)) = true ->
   (forall v,
      configDatabase readFileSync (withTrustSetting v server) database
      = configDatabase readFileSync server database)
   /\ (forall config,
         configDatabase readFileSync server database = Some config ->
         opt_trustServerCertificate (cfg_options config) = Some (Js.Bool true) ->
         truthy (sc_sslRejectUnauthorized (server_config server)) = false
         /\ truthyPath (sc_sslCaFile (server_config server)) = true
         /\ truthyPath (sc_sslCertFile (server_config server)) = true
         /\ truthyPath (sc_sslKeyFile (server_config server)) = true))
  /\ (truthy (sshTunnel server) = true ->
      forall host port,
        configDatabase readFileSync (withHostPort host port server) database
        = configDatabase readFileSync server database).
Proof.
  destruct server as [c tunnel]. split.
  - intros Hssl. cbn in Hssl. split.
    + intros v. unfold configDatabase, withTrustSetting. cbn. now rewrite Hssl.
    + intros config. unfold configDatabase. cbn. rewrite Hssl.
      destruct (readIfSet readFileSync (sc_sslCaFile c)) as [ca|]; [|discriminate].
      destruct (readIfSet readFileSync (sc_sslCertFile c)) as [cert|]; [|discriminate].
      destruct (readIfSet readFileSync (sc_sslKeyFile c)) as [key|]; [|discriminate].
      intros E. inversion E; subst. cbn.
      destruct (truthyPath (sc_sslCaFile c)), (truthyPath (sc_sslCertFile c)),
        (truthyPath (sc_sslKeyFile c)); cbn; try discriminate.
      destruct (truthy (sc_sslRejectUnauthorized c)); cbn; [discriminate|]. auto.
  - intros Htunnel. cbn in Htunnel. intros host port.
    unfold configDatabase, withHostPort. cbn. now rewrite Htunnel.
Qed.

Lemma configDatabase_ignored_settings_witness :
  configDatabase sampleFiles (withTrustSetting (Js.Bool false) sampleServer) (Js.Str "shop")
  = configDatabase sampleFiles sampleServer (Js.Str "shop")
  /\ configDatabase sampleFiles
       (withHostPort (Js.Str "other.host") (Js.Number 1) sampleServer) (Js.Str "shop")
     = configDatabase sampleFiles sampleServer (Js.Str "shop").
Proof.
  split.
  - exact (proj1 (proj1 (configDatabase_ignored_settings sampleFiles sampleServer
                           (Js.Str "shop")) eq_refl) (Js.Bool false)).
  - exact (proj2 (configDatabase_ignored_settings sampleFiles sampleServer
                    (Js.Str "shop")) eq_refl (Js.Str "other.host") (Js.Number 1)).
Defined.
